(** * hscontrol/mapper: map responses and their wire frames

    A shallow embedding of [hscontrol/mapper/mapper.go]: the response builder
    ([fullMapResponse]), the user profile aggregator ([generateUserProfiles]),
    the DNS synthesiser ([generateDNSConfig], [addNextDNSMetadata]) and the
    serialiser and framer ([marshalMapResponse]).

    Conventions.
    - A Go [string] and a Go [[]byte] are byte sequences: [string] and
      [list byte].  A nil slice is the empty list.
    - [uint32], [uint] and [int64] are [Z] with the wrap-around written out.
    - Pointers into mutable data are locations of a store; a nil pointer is
      [None].  A run-time panic (nil dereference, write to a nil map, slice
      index out of range) is the outcome [Panicked]; so is the use of a
      location that the store does not hold, which Go rules out.
    - The requesting machine and the mapper are taken by value: the
      claims are about a node and a mapper that exist.
    - Go leaves the iteration order of a map unspecified; the embedding
      iterates in the order of [map_to_list] and [elements], and no theorem
      depends on it. *)

From Stdlib Require Import ZArith String Ascii List Lia.
From Stdlib.Strings Require Import Byte.
From stdpp Require Import base option list gmap strings sorting fin_maps fin_sets.

Local Open Scope Z_scope.

(** ** Bytes and fixed-width integers *)

Definition byte_of_Z (z : Z) : byte :=
  match Byte.of_N (Z.to_N (z mod 256)) with
  | Some b => b
  | None => x00
  end.

Definition Z_of_byte (b : byte) : Z := Z.of_N (Byte.to_N b).

(** Go's [len]: an [int], never negative. *)
Definition len {A : Type} (l : list A) : Z := Z.of_nat (List.length l).

(** The conversion [uint32(n)]. *)
Definition uint32 (n : Z) : Z := n mod 2 ^ 32.

(** The conversion [int64(n)] of an unsigned 64-bit [n]. *)
Definition int64_of_uint (n : Z) : Z :=
  let r := n mod 2 ^ 64 in
  if (r <? 2 ^ 63) then r else r - 2 ^ 64.

(** ** encoding/binary *)

Module binary.

(** [binary.LittleEndian.PutUint32(b, v)]: writes the four bytes of [v] at
    [b[0..3]], least significant first; a shorter [b] is an index out of
    range. *)
Definition PutUint32 (b : list byte) (v : Z) : option (list byte) :=
  if (len b <? 4) then None
  else Some (<[3%nat := byte_of_Z (Z.shiftr v 24)]>
            (<[2%nat := byte_of_Z (Z.shiftr v 16)]>
            (<[1%nat := byte_of_Z (Z.shiftr v 8)]>
            (<[0%nat := byte_of_Z v]> b)))).

(** [binary.LittleEndian.Uint32(b)], the reader of the header. *)
Definition Uint32 (b : list byte) : option Z :=
  match b with
  | b0 :: b1 :: b2 :: b3 :: _ =>
      Some (Z.lor (Z_of_byte b0)
           (Z.lor (Z.shiftl (Z_of_byte b1) 8)
           (Z.lor (Z.shiftl (Z_of_byte b2) 16)
                  (Z.shiftl (Z_of_byte b3) 24))))
  | _ => None
  end.

End binary.

(** ** net/url *)

Module url.

Definition is_alnum (c : ascii) : bool :=
  let n := N_of_ascii c in
  ((48 <=? n) && (n <=? 57) || (65 <=? n) && (n <=? 90)
   || (97 <=? n) && (n <=? 122))%N.

(** [shouldEscape(c, encodeQueryComponent)]: everything is escaped but the
    unreserved characters. *)
Definition shouldEscape (c : ascii) : bool :=
  if is_alnum c then false
  else match c with
       | "-" | "_" | "." | "~" => false
       | _ => true
       end%char.

Definition upperhex (n : N) : ascii :=
  (if n <? 10 then ascii_of_N (48 + n) else ascii_of_N (55 + n))%N.

(** [url.QueryEscape]. *)
Fixpoint QueryEscape (s : string) : string :=
  match s with
  | EmptyString => EmptyString
  | String c rest =>
      if shouldEscape c then
        if Ascii.eqb c " " then String "+" (QueryEscape rest)
        else String "%" (String (upperhex (N_of_ascii c / 16))
                        (String (upperhex (N_of_ascii c mod 16))
                                (QueryEscape rest)))
      else String c (QueryEscape rest)
  end.

(** [url.Values], a [map[string][]string]. *)
Abbreviation Values := (gmap string (list string)).

(** [Values.Add]: appends the value to the list of the key. *)
Definition Add (v : Values) (key value : string) : Values :=
  <[key := (default [] (v !! key) ++ [value])%list]> v.

Definition key_le (a b : string * list string) : Prop :=
  Is_true (String.leb a.1 b.1).

#[global] Instance key_le_dec a b : Decision (key_le a b).
Proof. unfold key_le. apply _. Defined.

Definition pairs_of (kv : string * list string) : list string :=
  List.map (fun value => (QueryEscape kv.1 ++ "=" ++ QueryEscape value)%string)
           kv.2.

(** [Values.Encode]: the keys in sorted order, every value of a key as
    [key=value], the pieces separated by [&].  (The source writes the
    separator when its buffer is not empty, that is before every piece but
    the first, a piece never being empty.) *)
Definition Encode (v : Values) : string :=
  String.concat "&"
    (List.concat (List.map pairs_of (merge_sort key_le (map_to_list v)))).

End url.

(** ** What the package imports and does not define

    The types of [tailcfg], [policy], [key], [netip] and [time] that the
    mapper only passes along, and the one method it calls on an address. *)

Class Externals : Type := {
  error : Type;
  netip_Addr : Type;
  netip_Addr_String : netip_Addr → string;
  tailcfg_Node : Type;
  tailcfg_DERPMap : Type;
  tailcfg_FilterRule : Type;
  tailcfg_SSHPolicy : Type;
  tailcfg_DNSRecord : Type;
  policy_ACLPolicy : Type;
  time_Time : Type;
  key_MachinePrivate : Type;
  key_MachinePublic : Type;
  (** the zero value [key.MachinePublic{}] *)
  key_MachinePublic_zero : key_MachinePublic;
}.

(** A location of the store. *)
Definition loc : Type := positive.

(** A Go result [(T, error)] of which one component is set. *)
Inductive result (E A : Type) : Type :=
  | Ok (a : A)
  | Err (e : E).
Arguments Ok {E A} a.
Arguments Err {E A} e.

(** ** Data model *)

Module types.

(** Modelled from the spec: [types.User] is declared outside this package;
    the spec's user record carries a numeric id and a login name, the two
    fields the mapper reads.  [ID] is a [uint]. *)
Module User.
Record t : Type := { ID : Z; Name : string }.

#[global] Instance eq_dec : EqDecision t.
Proof. solve_decision. Defined.

#[global] Instance countable : Countable t.
Proof.
  refine (inj_countable' (fun u => (ID u, Name u))
                         (fun p => {| ID := p.1; Name := p.2 |}) _).
  intros []; reflexivity.
Defined.
End User.

(** [types.HostInfo], of which the mapper reads [OS]. *)
Module HostInfo.
Record t : Type := { OS : string }.
End HostInfo.

(** [types.Machine], with the fields the mapper reads. *)
Module Machine.
Section Machine.
Context `{Externals}.
Record t : Type := {
  MachineKey : string;
  IPAddresses : list netip_Addr;
  Hostname : string;
  User : User.t;
  HostInfo : HostInfo.t;
}.
End Machine.
End Machine.

End types.

Module dnstype.

Module Resolver.
Section Resolver.
Context `{Externals}.
Record t : Type := {
  Addr : string;
  BootstrapResolution : list netip_Addr;
}.
End Resolver.
End Resolver.

End dnstype.

Module tailcfg.

(** [tailcfg.DNSConfig].  [Resolvers], [FallbackResolvers] and the targets
    of [Routes] are slices of pointers to resolvers; [Routes] is a map, nil
    when [None]. *)
Module DNSConfig.
Section DNSConfig.
Context `{Externals}.
Record t : Type := {
  Resolvers : list (option loc);
  Routes : option (gmap string (list (option loc)));
  FallbackResolvers : list (option loc);
  Domains : list string;
  Proxied : bool;
  Nameservers : list netip_Addr;
  CertDomains : list string;
  ExtraRecords : list tailcfg_DNSRecord;
  ExitNodeFilteredSet : list string;
}.
End DNSConfig.
End DNSConfig.

(** [tailcfg.UserProfile], with the fields the mapper sets; [ID] is a
    [tailcfg.UserID], an [int64]. *)
Module UserProfile.
Record t : Type := { ID : Z; LoginName : string; DisplayName : string }.
End UserProfile.

(** [tailcfg.Debug], with the fields the mapper sets. *)
Module Debug.
Record t : Type := { DisableLogTail : bool; RandomizeClientPort : bool }.
End Debug.

(** [tailcfg.Hostinfo], of which the mapper reads [Hostname]. *)
Module Hostinfo.
Record t : Type := { Hostname : string }.
End Hostinfo.

(** [tailcfg.MapRequest], with the fields the mapper reads. *)
Module MapRequest.
Record t : Type := { Compress : string; Hostinfo : option Hostinfo.t }.
End MapRequest.

(** [tailcfg.MapResponse], with the fields the mapper sets; a field left
    out of a composite literal has its zero value. *)
Module MapResponse.
Section MapResponse.
Context `{Externals}.
Record t : Type := {
  KeepAlive : bool;
  Node : option tailcfg_Node;
  DERPMap : option tailcfg_DERPMap;
  Peers : list tailcfg_Node;
  DNSConfig : option loc;
  Domain : string;
  CollectServices : string;
  PacketFilter : list tailcfg_FilterRule;
  UserProfiles : list UserProfile.t;
  SSHPolicy : option tailcfg_SSHPolicy;
  ControlTime : option time_Time;
  Debug : option Debug.t;
}.

(** The zero value [tailcfg.MapResponse{}]. *)
Definition zero : t := {|
  KeepAlive := false; Node := None; DERPMap := None; Peers := [];
  DNSConfig := None; Domain := ""; CollectServices := "";
  PacketFilter := []; UserProfiles := []; SSHPolicy := None;
  ControlTime := None; Debug := None;
|}.
End MapResponse.
End MapResponse.

End tailcfg.

(** ** The store and the monad of the mapper *)

Section Store.
Context `{Externals}.

(** The DNS configurations and the resolvers that pointers refer to. *)
Record Store : Type := {
  cfgs : gmap loc tailcfg.DNSConfig.t;
  ress : gmap loc dnstype.Resolver.t;
}.

Inductive outcome (A : Type) : Type :=
  | Returned (a : A) (σ : Store)
  | Panicked.

Definition M (A : Type) : Type := Store → outcome A.

Definition ret {A : Type} (a : A) : M A := fun σ => Returned A a σ.

Definition bind {A B : Type} (m : M A) (f : A → M B) : M B :=
  fun σ => match m σ with
           | Returned _ a σ' => f a σ'
           | Panicked _ => Panicked B
           end.

Definition panic {A : Type} : M A := fun _ => Panicked A.

Definition get_store : M Store := fun σ => Returned Store σ σ.

End Store.

Arguments Returned {_ A} a σ.
Arguments Panicked {_ A}.

Declare Scope go_scope.
Delimit Scope go_scope with go.
Notation "x <- c1 ;; c2" := (bind c1 (fun x => c2))
  (at level 100, c1 at next level, right associativity) : go_scope.
Notation "c1 ;; c2" := (bind c1 (fun _ => c2))
  (at level 100, right associativity) : go_scope.
Local Open Scope go_scope.

Section Heap.
Context `{Externals}.

(** [*p] for a pointer to a resolver. *)
Definition load_resolver (p : option loc) : M dnstype.Resolver.t :=
  fun σ => match p with
           | None => Panicked
           | Some l => match ress σ !! l with
                       | Some r => Returned r σ
                       | None => Panicked
                       end
           end.

(** [*p = r]. *)
Definition store_resolver (p : option loc) (r : dnstype.Resolver.t) : M unit :=
  fun σ => match p with
           | None => Panicked
           | Some l => match ress σ !! l with
                       | Some _ =>
                           Returned tt {| cfgs := cfgs σ; ress := <[l := r]> (ress σ) |}
                       | None => Panicked
                       end
           end.

(** [new(dnstype.Resolver)] initialised with [r]. *)
Definition new_resolver (r : dnstype.Resolver.t) : M (option loc) :=
  fun σ => let l := fresh (dom (ress σ)) in
           Returned (Some l) {| cfgs := cfgs σ; ress := <[l := r]> (ress σ) |}.

(** [*p] for a pointer to a DNS configuration. *)
Definition load_cfg (p : option loc) : M tailcfg.DNSConfig.t :=
  fun σ => match p with
           | None => Panicked
           | Some l => match cfgs σ !! l with
                       | Some c => Returned c σ
                       | None => Panicked
                       end
           end.

(** [*p = c]. *)
Definition store_cfg (p : option loc) (c : tailcfg.DNSConfig.t) : M unit :=
  fun σ => match p with
           | None => Panicked
           | Some l => match cfgs σ !! l with
                       | Some _ =>
                           Returned tt {| cfgs := <[l := c]> (cfgs σ); ress := ress σ |}
                       | None => Panicked
                       end
           end.

(** [new(tailcfg.DNSConfig)] initialised with [c]. *)
Definition new_cfg (c : tailcfg.DNSConfig.t) : M (option loc) :=
  fun σ => let l := fresh (dom (cfgs σ)) in
           Returned (Some l) {| cfgs := <[l := c]> (cfgs σ); ress := ress σ |}.

(** A [for ... range] loop that collects a result per element. *)
Fixpoint for_each {A B : Type} (f : A → M B) (l : list A) : M (list B) :=
  match l with
  | [] => ret []
  | x :: l' => y <- f x ;; ys <- for_each f l' ;; ret (y :: ys)
  end.

(** A [for ... range] loop run for its effect. *)
Fixpoint for_range {A : Type} (f : A → M unit) (l : list A) : M unit :=
  match l with
  | [] => ret tt
  | x :: l' => f x ;; for_range f l'
  end.

End Heap.

(** ** Collaborators

    Functions of the repository and of its libraries that the mapper calls
    and that are defined outside [mapper.go].  The persistence layer is the
    record [db.HSDatabase]; it and the serialiser read the store, through
    the pointers they are given. *)

Module db.
Section db.
Context `{Externals}.
Record HSDatabase : Type := {
  TailNode : Store → types.Machine.t → option policy_ACLPolicy →
             option loc → result error tailcfg_Node;
  ListPeers : Store → types.Machine.t → result error (list types.Machine.t);
  TailNodes : Store → list types.Machine.t → option policy_ACLPolicy →
              option loc → result error (list tailcfg_Node);
}.
End db.
End db.

Class Collaborators `{Externals} : Type := {
  (** [json.Marshal]; with an error it returns a nil slice. *)
  json_Marshal : Store → tailcfg.MapResponse.t → result error (list byte);
  (** [EncodeAll(in, nil)] of the pooled [zstd.Encoder]. *)
  zstd_EncodeAll : list byte → list byte;
  (** [key.MachinePrivate.SealTo], with the nonce it draws. *)
  key_SealTo : key_MachinePrivate → key_MachinePublic → list byte → list byte;
  key_MachinePublic_UnmarshalText : list byte → result error key_MachinePublic;
  util_MachinePublicKeyEnsurePrefix : string → string;
  (** the constant [util.ZstdCompression], the name of the compression *)
  util_ZstdCompression : string;
  policy_GenerateFilterRules :
    option policy_ACLPolicy → list types.Machine.t → bool →
    result error (list tailcfg_FilterRule * option tailcfg_SSHPolicy);
  policy_FilterMachinesByACL :
    types.Machine.t → list types.Machine.t → list tailcfg_FilterRule →
    list types.Machine.t;
  (** the reading of [time.Now()] *)
  time_Now : time_Time;
}.

(** ** tailcfg's generated cloners *)

Section Clone.
Context `{Externals}.
Import dnstype.Resolver tailcfg.DNSConfig.

(** Modelled from the spec: the cloners are generated code of the [tailcfg]
    library, which is not among the sources; the spec has the template
    cloned so that the clone shares nothing with it.  [Clone] of a pointer
    to a [dnstype.Resolver]: nil for nil, else a new resolver with the same
    fields. *)
Definition Resolver_Clone (src : option loc) : M (option loc) :=
  match src with
  | None => ret None
  | Some _ =>
      r <- load_resolver src ;;
      new_resolver {| Addr := Addr r;
                      BootstrapResolution := BootstrapResolution r |}
  end.

(** Modelled from the spec: see [Resolver_Clone].  [Clone] of a pointer to
    a [tailcfg.DNSConfig]: nil for nil, else a new configuration whose
    resolvers and fallback resolvers are clones, whose slices are copies and
    whose route map is a new map with the same entries, nil when the
    source's is nil. *)
Definition DNSConfig_Clone (src : option loc) : M (option loc) :=
  match src with
  | None => ret None
  | Some _ =>
      c <- load_cfg src ;;
      rs <- for_each Resolver_Clone (Resolvers c) ;;
      frs <- for_each Resolver_Clone (FallbackResolvers c) ;;
      new_cfg {| Resolvers := rs;
                 Routes := Routes c;
                 FallbackResolvers := frs;
                 Domains := Domains c;
                 Proxied := Proxied c;
                 Nameservers := Nameservers c;
                 CertDomains := CertDomains c;
                 ExtraRecords := ExtraRecords c;
                 ExitNodeFilteredSet := ExitNodeFilteredSet c |}
  end.

End Clone.

(** ** mapper.go *)

Definition nextDNSDoHPrefix : string := "https://dns.nextdns.io".
Definition reservedResponseHeaderSize : Z := 4.

Section Mapper.
Context `{Collaborators}.

Record Mapper : Type := {
  db : db.HSDatabase;
  privateKey2019 : option key_MachinePrivate;
  isNoise : bool;
  derpMap : option tailcfg_DERPMap;
  baseDomain : string;
  dnsCfg : option loc;
  logtail : bool;
  randomClientPort : bool;
  stripEmailDomain : bool;
}.

Definition NewMapper (db : db.HSDatabase)
    (privateKey : option key_MachinePrivate) (isNoise : bool)
    (derpMap : option tailcfg_DERPMap) (baseDomain : string)
    (dnsCfg : option loc) (logtail randomClientPort stripEmailDomain : bool)
    : Mapper :=
  {| db := db; privateKey2019 := privateKey; isNoise := isNoise;
     derpMap := derpMap; baseDomain := baseDomain; dnsCfg := dnsCfg;
     logtail := logtail; randomClientPort := randomClientPort;
     stripEmailDomain := stripEmailDomain |}.

(** The profile of one user of [userMap]. *)
Definition profile_of (baseDomain : string) (user : types.User.t)
    : tailcfg.UserProfile.t :=
  let displayName := types.User.Name user in
  let displayName :=
    if String.eqb baseDomain "" then displayName
    else (types.User.Name user ++ "@" ++ baseDomain)%string in
  {| tailcfg.UserProfile.ID := int64_of_uint (types.User.ID user);
     tailcfg.UserProfile.LoginName := types.User.Name user;
     tailcfg.UserProfile.DisplayName := displayName |}.

Definition generateUserProfiles (machine : types.Machine.t)
    (peers : list types.Machine.t) (baseDomain : string)
    : list tailcfg.UserProfile.t :=
  let userMap : gmap string types.User.t := ∅ in
  let userMap :=
    <[types.User.Name (types.Machine.User machine) := types.Machine.User machine]>
      userMap in
  let userMap :=
    foldl (fun userMap peer =>
             <[types.User.Name (types.Machine.User peer) := types.Machine.User peer]>
               userMap)
          userMap peers in
  foldl (fun profiles kv => profiles ++ [profile_of baseDomain kv.2])
        [] (map_to_list userMap).

(** The body of the loop of [addNextDNSMetadata]. *)
Definition tag_resolver (machine : types.Machine.t) (resolver : option loc)
    : M unit :=
  r <- load_resolver resolver ;;
  if String.prefix nextDNSDoHPrefix (dnstype.Resolver.Addr r) then
    let attrs : url.Values :=
      {[ "device_name"%string := [types.Machine.Hostname machine];
         "device_model"%string :=
           [types.HostInfo.OS (types.Machine.HostInfo machine)] ]} in
    let attrs :=
      (* len(machine.IPAddresses) > 0, then machine.IPAddresses[0] *)
      match types.Machine.IPAddresses machine with
      | ip :: _ => url.Add attrs "device_ip" (netip_Addr_String ip)
      | [] => attrs
      end in
    store_resolver resolver
      {| dnstype.Resolver.Addr :=
           (dnstype.Resolver.Addr r ++ "?" ++ url.Encode attrs)%string;
         dnstype.Resolver.BootstrapResolution :=
           dnstype.Resolver.BootstrapResolution r |}
  else ret tt.

Definition addNextDNSMetadata (resolvers : list (option loc))
    (machine : types.Machine.t) : M unit :=
  for_range (tag_resolver machine) resolvers.

(** The configuration [c] after the assignment [c.Domains = domains]. *)
Definition with_Domains (c : tailcfg.DNSConfig.t) (domains : list string)
    : tailcfg.DNSConfig.t :=
  {| tailcfg.DNSConfig.Resolvers := tailcfg.DNSConfig.Resolvers c;
     tailcfg.DNSConfig.Routes := tailcfg.DNSConfig.Routes c;
     tailcfg.DNSConfig.FallbackResolvers := tailcfg.DNSConfig.FallbackResolvers c;
     tailcfg.DNSConfig.Domains := domains;
     tailcfg.DNSConfig.Proxied := tailcfg.DNSConfig.Proxied c;
     tailcfg.DNSConfig.Nameservers := tailcfg.DNSConfig.Nameservers c;
     tailcfg.DNSConfig.CertDomains := tailcfg.DNSConfig.CertDomains c;
     tailcfg.DNSConfig.ExtraRecords := tailcfg.DNSConfig.ExtraRecords c;
     tailcfg.DNSConfig.ExitNodeFilteredSet :=
       tailcfg.DNSConfig.ExitNodeFilteredSet c |}.

(** The configuration [c] with the route map [routes]. *)
Definition with_Routes (c : tailcfg.DNSConfig.t)
    (routes : option (gmap string (list (option loc)))) : tailcfg.DNSConfig.t :=
  {| tailcfg.DNSConfig.Resolvers := tailcfg.DNSConfig.Resolvers c;
     tailcfg.DNSConfig.Routes := routes;
     tailcfg.DNSConfig.FallbackResolvers := tailcfg.DNSConfig.FallbackResolvers c;
     tailcfg.DNSConfig.Domains := tailcfg.DNSConfig.Domains c;
     tailcfg.DNSConfig.Proxied := tailcfg.DNSConfig.Proxied c;
     tailcfg.DNSConfig.Nameservers := tailcfg.DNSConfig.Nameservers c;
     tailcfg.DNSConfig.CertDomains := tailcfg.DNSConfig.CertDomains c;
     tailcfg.DNSConfig.ExtraRecords := tailcfg.DNSConfig.ExtraRecords c;
     tailcfg.DNSConfig.ExitNodeFilteredSet :=
       tailcfg.DNSConfig.ExitNodeFilteredSet c |}.

(** [dnsConfig.Domains = append(dnsConfig.Domains, domain)]. *)
Definition append_domain (dnsConfig : option loc) (domain : string) : M unit :=
  c <- load_cfg dnsConfig ;;
  store_cfg dnsConfig (with_Domains c (tailcfg.DNSConfig.Domains c ++ [domain])).

(** [dnsConfig.Routes[dnsRoute] = nil]; an assignment to an entry of a nil
    map panics. *)
Definition set_route_nil (dnsConfig : option loc) (dnsRoute : string) : M unit :=
  c <- load_cfg dnsConfig ;;
  match tailcfg.DNSConfig.Routes c with
  | None => panic
  | Some routes =>
      store_cfg dnsConfig (with_Routes c (Some (<[dnsRoute := []]> routes)))
  end.

(** The users of the machine and of the peers, as [mapset] collects them. *)
Definition user_set (machine : types.Machine.t) (peers : list types.Machine.t)
    : gset types.User.t :=
  let userSet : gset types.User.t := ∅ in
  let userSet := userSet ∪ {[types.Machine.User machine]} in
  foldl (fun userSet p => userSet ∪ {[types.Machine.User p]}) userSet peers.

(** [base != nil && base.Proxied]. *)
Definition magic_dns (base : option loc) : M bool :=
  match base with
  | None => ret false
  | Some _ => c <- load_cfg base ;; ret (tailcfg.DNSConfig.Proxied c)
  end.

Definition generateDNSConfig (base : option loc) (baseDomain : string)
    (machine : types.Machine.t) (peers : list types.Machine.t)
    : M (option loc) :=
  dnsConfig <- DNSConfig_Clone base ;;
  enabled <- magic_dns base ;;
  dnsConfig <-
    (if enabled : bool then
       append_domain dnsConfig
         (types.User.Name (types.Machine.User machine) ++ "." ++ baseDomain)%string ;;
       let userSet := user_set machine peers in
       for_range
         (fun user =>
            let dnsRoute := (types.User.Name user ++ "." ++ baseDomain)%string in
            set_route_nil dnsConfig dnsRoute)
         (elements userSet) ;;
       ret dnsConfig
     else ret base) ;;
  c <- load_cfg dnsConfig ;;
  addNextDNSMetadata (tailcfg.DNSConfig.Resolvers c) machine ;;
  ret dnsConfig.

(** [mapRequest.Hostinfo.Hostname], read for the trace lines; [Hostinfo]
    is a pointer. *)
Definition trace_hostname (mapRequest : tailcfg.MapRequest.t) : M string :=
  match tailcfg.MapRequest.Hostinfo mapRequest with
  | None => panic
  | Some hostinfo => ret (tailcfg.Hostinfo.Hostname hostinfo)
  end.

Definition fullMapResponse (m : Mapper) (mapRequest : tailcfg.MapRequest.t)
    (machine : types.Machine.t) (pol : option policy_ACLPolicy)
    : M (result error tailcfg.MapResponse.t) :=
  trace_hostname mapRequest ;;
  σ <- get_store ;;
  match db.TailNode (db m) σ machine pol (dnsCfg m) with
  | Err err => ret (Err err)
  | Ok node =>
  match db.ListPeers (db m) σ machine with
  | Err err => ret (Err err)
  | Ok peers =>
  match policy_GenerateFilterRules pol peers (stripEmailDomain m) with
  | Err err => ret (Err err)
  | Ok (rules, sshPolicy) =>
  let peers :=
    if (0 <? len rules) then policy_FilterMachinesByACL machine peers rules
    else peers in
  let profiles := generateUserProfiles machine peers (baseDomain m) in
  match db.TailNodes (db m) σ peers pol (dnsCfg m) with
  | Err err => ret (Err err)
  | Ok nodePeers =>
  dnsConfig <- generateDNSConfig (dnsCfg m) (baseDomain m) machine peers ;;
  let now := time_Now in
  let resp := {|
    tailcfg.MapResponse.KeepAlive := false;
    tailcfg.MapResponse.Node := Some node;
    tailcfg.MapResponse.DERPMap := derpMap m;
    tailcfg.MapResponse.Peers := nodePeers;
    tailcfg.MapResponse.DNSConfig := dnsConfig;
    tailcfg.MapResponse.Domain := baseDomain m;
    tailcfg.MapResponse.CollectServices := "false";
    tailcfg.MapResponse.PacketFilter := rules;
    tailcfg.MapResponse.UserProfiles := profiles;
    tailcfg.MapResponse.SSHPolicy := sshPolicy;
    tailcfg.MapResponse.ControlTime := Some now;
    tailcfg.MapResponse.Debug :=
      Some {| tailcfg.Debug.DisableLogTail := negb (logtail m);
              tailcfg.Debug.RandomizeClientPort := randomClientPort m |};
  |} in
  trace_hostname mapRequest ;;
  ret (Ok resp)
  end end end end.

(** [zstdEncode]: the encoder is taken from the pool, whose [New] builds a
    [zstd.Encoder], used and put back within the call. *)
Definition zstdEncode (input : list byte) : list byte :=
  let out := zstd_EncodeAll input in
  out.

(** [privateKey2019.SealTo(machineKey, body)] through the pointer. *)
Definition SealTo (privateKey2019 : option key_MachinePrivate)
    (machineKey : key_MachinePublic) (body : list byte) : M (list byte) :=
  match privateKey2019 with
  | None => panic
  | Some k => ret (key_SealTo k machineKey body)
  end.

(** [make([]byte, n)]. *)
Definition make_bytes (n : Z) : list byte := replicate (Z.to_nat n) x00.

Definition marshalMapResponse (m : Mapper) (resp : tailcfg.MapResponse.t)
    (machineKey : key_MachinePublic) (compression : string)
    : M (result error (list byte)) :=
  σ <- get_store ;;
  let jsonBody :=
    match json_Marshal σ resp with
    | Ok jsonBody => jsonBody
    | Err err => [] (* the error is logged, and the nil body is used *)
    end in
  respBody <-
    (if String.eqb compression util_ZstdCompression then
       let respBody := zstdEncode jsonBody in
       if negb (isNoise m) then SealTo (privateKey2019 m) machineKey respBody
       else ret respBody
     else
       if negb (isNoise m) then SealTo (privateKey2019 m) machineKey jsonBody
       else ret jsonBody) ;;
  let data := make_bytes reservedResponseHeaderSize in
  match binary.PutUint32 data (uint32 (len respBody)) with
  | None => panic
  | Some data =>
      let data := data ++ respBody in
      ret (Ok data)
  end.

(** [MarshalResponse], the serialiser of the other handlers, here at the
    type of the map response. *)
Definition MarshalResponse (resp : tailcfg.MapResponse.t)
    (privateKey2019 : option key_MachinePrivate)
    (machineKey : key_MachinePublic) : M (result error (list byte)) :=
  σ <- get_store ;;
  match json_Marshal σ resp with
  | Err err => ret (Err err)
  | Ok jsonBody =>
      match privateKey2019 with
      | Some k => ret (Ok (key_SealTo k machineKey jsonBody))
      | None => ret (Ok jsonBody)
      end
  end.

(** [machineKey.UnmarshalText([]byte(util.MachinePublicKeyEnsurePrefix(
    machine.MachineKey)))]. *)
Definition parse_machine_key (machine : types.Machine.t)
    : result error key_MachinePublic :=
  key_MachinePublic_UnmarshalText
    (list_byte_of_string
       (util_MachinePublicKeyEnsurePrefix (types.Machine.MachineKey machine))).

Definition CreateMapResponse (m : Mapper) (mapRequest : tailcfg.MapRequest.t)
    (machine : types.Machine.t) (pol : option policy_ACLPolicy)
    : M (result error (list byte)) :=
  r <- fullMapResponse m mapRequest machine pol ;;
  match r with
  | Err err => ret (Err err)
  | Ok mapResponse =>
      if isNoise m then
        marshalMapResponse m mapResponse key_MachinePublic_zero
          (tailcfg.MapRequest.Compress mapRequest)
      else
        match parse_machine_key machine with
        | Err err => ret (Err err)
        | Ok machineKey =>
            marshalMapResponse m mapResponse machineKey
              (tailcfg.MapRequest.Compress mapRequest)
        end
  end.

(** The literal [tailcfg.MapResponse{KeepAlive: true}]. *)
Definition keepAliveResponse : tailcfg.MapResponse.t := {|
  tailcfg.MapResponse.KeepAlive := true;
  tailcfg.MapResponse.Node := tailcfg.MapResponse.Node tailcfg.MapResponse.zero;
  tailcfg.MapResponse.DERPMap := tailcfg.MapResponse.DERPMap tailcfg.MapResponse.zero;
  tailcfg.MapResponse.Peers := tailcfg.MapResponse.Peers tailcfg.MapResponse.zero;
  tailcfg.MapResponse.DNSConfig := tailcfg.MapResponse.DNSConfig tailcfg.MapResponse.zero;
  tailcfg.MapResponse.Domain := tailcfg.MapResponse.Domain tailcfg.MapResponse.zero;
  tailcfg.MapResponse.CollectServices :=
    tailcfg.MapResponse.CollectServices tailcfg.MapResponse.zero;
  tailcfg.MapResponse.PacketFilter :=
    tailcfg.MapResponse.PacketFilter tailcfg.MapResponse.zero;
  tailcfg.MapResponse.UserProfiles :=
    tailcfg.MapResponse.UserProfiles tailcfg.MapResponse.zero;
  tailcfg.MapResponse.SSHPolicy := tailcfg.MapResponse.SSHPolicy tailcfg.MapResponse.zero;
  tailcfg.MapResponse.ControlTime :=
    tailcfg.MapResponse.ControlTime tailcfg.MapResponse.zero;
  tailcfg.MapResponse.Debug := tailcfg.MapResponse.Debug tailcfg.MapResponse.zero;
|}.

Definition CreateKeepAliveResponse (m : Mapper)
    (mapRequest : tailcfg.MapRequest.t) (machine : types.Machine.t)
    : M (result error (list byte)) :=
  if isNoise m then
    marshalMapResponse m keepAliveResponse key_MachinePublic_zero
      (tailcfg.MapRequest.Compress mapRequest)
  else
    match parse_machine_key machine with
    | Err err => ret (Err err)
    | Ok machineKey =>
        marshalMapResponse m keepAliveResponse machineKey
          (tailcfg.MapRequest.Compress mapRequest)
    end.

End Mapper.

(** ** Properties stated in the words of the specification *)

Section Words.
Context `{Collaborators}.

(** A frame: the four bytes of [n], least significant first, then the
    payload. *)
Definition header (n : Z) : list byte :=
  [byte_of_Z n; byte_of_Z (Z.shiftr n 8); byte_of_Z (Z.shiftr n 16);
   byte_of_Z (Z.shiftr n 24)].

Definition frame (payload : list byte) : list byte :=
  header (uint32 (len payload)) ++ payload.

(** The header of [data] holds the exact length of what follows it. *)
Definition header_is_length (data : list byte) : Prop :=
  binary.Uint32 (take 4 data) = Some (len (drop 4 data)).

(** The serialised response, empty when the serialiser fails. *)
Definition serialized (σ : Store) (resp : tailcfg.MapResponse.t) : list byte :=
  match json_Marshal σ resp with
  | Ok body => body
  | Err _ => []
  end.

(** Compression, applied when the request names [util.ZstdCompression]. *)
Definition compressed (compression : string) (body : list byte) : list byte :=
  if String.eqb compression util_ZstdCompression then zstd_EncodeAll body
  else body.

(** The users of the requesting node and of its peers. *)
Definition users_of (machine : types.Machine.t) (peers : list types.Machine.t)
    : list types.User.t :=
  types.Machine.User machine :: List.map types.Machine.User peers.

(** The map from login names to users that the aggregator builds. *)
Definition user_map (machine : types.Machine.t) (peers : list types.Machine.t)
    : gmap string types.User.t :=
  foldl (fun userMap peer =>
           <[types.User.Name (types.Machine.User peer) := types.Machine.User peer]>
             userMap)
        (<[types.User.Name (types.Machine.User machine) := types.Machine.User machine]> ∅)
        peers.


(** The query that tagging appends: [device_ip] when the node has an
    address, [device_model] and [device_name], each value URL-encoded. *)
Definition nextdns_query (machine : types.Machine.t) : string :=
  let model_and_name :=
    ("device_model="
     ++ url.QueryEscape (types.HostInfo.OS (types.Machine.HostInfo machine))
     ++ "&device_name="
     ++ url.QueryEscape (types.Machine.Hostname machine))%string in
  match types.Machine.IPAddresses machine with
  | ip :: _ =>
      ("device_ip=" ++ url.QueryEscape (netip_Addr_String ip) ++ "&"
       ++ model_and_name)%string
  | [] => model_and_name
  end.

(** A resolver after one tagging. *)
Definition tagged (machine : types.Machine.t) (r : dnstype.Resolver.t)
    : dnstype.Resolver.t :=
  if String.prefix "https://dns.nextdns.io" (dnstype.Resolver.Addr r) then
    {| dnstype.Resolver.Addr :=
         (dnstype.Resolver.Addr r ++ "?" ++ nextdns_query machine)%string;
       dnstype.Resolver.BootstrapResolution :=
         dnstype.Resolver.BootstrapResolution r |}
  else r.

(** The pointers of a resolver list point to resolvers of the store. *)
Definition resolvers_valid (σ : Store) (resolvers : list (option loc)) : Prop :=
  Forall (fun p => ∃ l, p = Some l ∧ is_Some (ress σ !! l)) resolvers.

(** The pointers of a list are nil or point to resolvers of the store. *)
Definition pointers_allocated (σ : Store) (ps : list (option loc)) : Prop :=
  Forall (fun p => ∀ l, p = Some l → is_Some (ress σ !! l)) ps.

(** The name that MagicDNS gives to a user. *)
Definition magic_name (baseDomain : string) (u : types.User.t) : string :=
  (types.User.Name u ++ "." ++ baseDomain)%string.

(** A pointer and its clone: nil for nil, else a location that was free. *)
Definition cloned (σ σ' : Store) (p p' : option loc) : Prop :=
  match p with
  | None => p' = None
  | Some _ => ∃ l', p' = Some l' ∧ (l' ∉ dom (ress σ)) ∧ is_Some (ress σ' !! l')
  end.

(** How often a location is listed. *)
Definition occurrences (l : loc) (resolvers : list (option loc)) : nat :=
  List.length (List.filter (fun p => bool_decide (p = Some l)) resolvers).

End Words.

(** ** A concrete world, for examples *)

Module Demo.

#[local] Instance externals : Externals := {|
  error := string;
  netip_Addr := string;
  netip_Addr_String := fun a => a;
  tailcfg_Node := string;
  tailcfg_DERPMap := unit;
  tailcfg_FilterRule := string;
  tailcfg_SSHPolicy := unit;
  tailcfg_DNSRecord := unit;
  policy_ACLPolicy := unit;
  time_Time := Z;
  key_MachinePrivate := byte;
  key_MachinePublic := byte;
  key_MachinePublic_zero := x00;
|}.

Definition user (id : Z) (name : string) : types.User.t :=
  {| types.User.ID := id; types.User.Name := name |}.

Definition machine_of (u : types.User.t) (hostname os : string)
    (ips : list string) : types.Machine.t :=
  {| types.Machine.MachineKey := "mkey:00";
     types.Machine.IPAddresses := ips;
     types.Machine.Hostname := hostname;
     types.Machine.User := u;
     types.Machine.HostInfo := {| types.HostInfo.OS := os |} |}.

Definition alice : types.User.t := user 1 "alice".
Definition bob : types.User.t := user 2 "bob".
Definition laptop : types.Machine.t :=
  machine_of alice "laptop" "linux" ["100.64.0.5"%string].
Definition phone : types.Machine.t :=
  machine_of bob "phone" "android" ["100.64.0.6"%string].

Definition config (proxied : bool)
    (routes : option (gmap string (list (option loc))))
    (resolvers : list (option loc)) : tailcfg.DNSConfig.t :=
  {| tailcfg.DNSConfig.Resolvers := resolvers;
     tailcfg.DNSConfig.Routes := routes;
     tailcfg.DNSConfig.FallbackResolvers := [];
     tailcfg.DNSConfig.Domains := ["example.com"%string];
     tailcfg.DNSConfig.Proxied := proxied;
     tailcfg.DNSConfig.Nameservers := [];
     tailcfg.DNSConfig.CertDomains := [];
     tailcfg.DNSConfig.ExtraRecords := [];
     tailcfg.DNSConfig.ExitNodeFilteredSet := [] |}.

Definition resolver (addr : string) : dnstype.Resolver.t :=
  {| dnstype.Resolver.Addr := addr;
     dnstype.Resolver.BootstrapResolution := [] |}.

(** A store with the template at location 1 and its two resolvers. *)
Definition store_of (c : tailcfg.DNSConfig.t) : Store :=
  {| cfgs := {[ 1%positive := c ]};
     ress := {[ 1%positive := resolver "https://dns.nextdns.io/abc123";
                2%positive := resolver "1.1.1.1" ]} |}.

(** The sealing of the examples marks the body with the two keys. *)
Definition seal (k p : byte) (body : list byte) : list byte :=
  k :: p :: body.

Definition collaborators
    (marshal : Store → tailcfg.MapResponse.t → result string (list byte))
    : Collaborators := {|
  json_Marshal := marshal;
  zstd_EncodeAll := fun body => x28 :: xb5 :: x2f :: xfd :: body;
  key_SealTo := seal;
  key_MachinePublic_UnmarshalText := fun text =>
    match text with
    | b :: _ => Ok b
    | [] => Err "empty key"%string
    end;
  util_MachinePublicKeyEnsurePrefix := fun s => s;
  util_ZstdCompression := "zstd";
  policy_GenerateFilterRules := fun pol peers strip =>
    match pol with
    | Some _ => Ok (["accept alice"%string], None)
    | None => Ok ([], None)
    end;
  policy_FilterMachinesByACL := fun machine peers rules =>
    List.filter
      (fun p => String.eqb (types.User.Name (types.Machine.User p)) "alice")
      peers;
  time_Now := 0;
|}.

(** A serialiser that tells a keepalive from a full response. *)
Definition marshal (σ : Store) (resp : tailcfg.MapResponse.t)
    : result string (list byte) :=
  Ok (list_byte_of_string
        (if tailcfg.MapResponse.KeepAlive resp then "{KeepAlive:true}"
         else "{KeepAlive:false}")).

(** A serialiser that fails. *)
Definition marshal_fails (σ : Store) (resp : tailcfg.MapResponse.t)
    : result string (list byte) :=
  Err "json: unsupported value"%string.

(** A response of 2^32 bytes. *)
Definition huge_body : list byte := replicate (Z.to_nat (2 ^ 32)) x20.

Definition marshal_huge (σ : Store) (resp : tailcfg.MapResponse.t)
    : result string (list byte) :=
  Ok huge_body.

Definition database : db.HSDatabase := {|
  db.TailNode := fun σ machine pol dnsCfg => Ok (types.Machine.Hostname machine);
  db.ListPeers := fun σ machine => Ok [phone];
  db.TailNodes := fun σ peers pol dnsCfg =>
    Ok (List.map types.Machine.Hostname peers);
|}.

Definition mapper (noise : bool) (dnsCfg : option loc) : Mapper :=
  NewMapper database (Some x2a) noise None "example.com" dnsCfg
            true false false.

(** A second account under the login name of [alice]. *)
Definition alice2 : types.User.t := user 2 "alice".
Definition tablet : types.Machine.t :=
  machine_of alice2 "tablet" "ios" ["100.64.0.7"%string].

Definition request (compress : string) : tailcfg.MapRequest.t :=
  {| tailcfg.MapRequest.Compress := compress;
     tailcfg.MapRequest.Hostinfo :=
       Some {| tailcfg.Hostinfo.Hostname := "laptop" |} |}.

(** The template of the examples, with the two resolvers of [store_of]. *)
Definition template (proxied : bool)
    (routes : option (gmap string (list (option loc)))) : tailcfg.DNSConfig.t :=
  config proxied routes [Some 1%positive; Some 2%positive].

(** MagicDNS disabled. *)
Definition store_disabled : Store := store_of (template false None).
(** MagicDNS enabled, the route map nil. *)
Definition store_nil_routes : Store := store_of (template true None).
(** MagicDNS enabled, the route map empty. *)
Definition store_enabled : Store := store_of (template true (Some ∅)).

(** Another world: it serialises full responses differently, generates other
    rules, filters nothing and reads another clock. *)
Definition marshal' (σ : Store) (resp : tailcfg.MapResponse.t)
    : result string (list byte) :=
  if tailcfg.MapResponse.KeepAlive resp
  then Ok (list_byte_of_string "{KeepAlive:true}")
  else Err "not serialised here"%string.

Definition collaborators' : Collaborators := {|
  json_Marshal := marshal';
  zstd_EncodeAll := fun body => x28 :: xb5 :: x2f :: xfd :: body;
  key_SealTo := seal;
  key_MachinePublic_UnmarshalText := fun text =>
    match text with
    | b :: _ => Ok b
    | [] => Err "empty key"%string
    end;
  util_MachinePublicKeyEnsurePrefix := fun s => s;
  util_ZstdCompression := "zstd";
  policy_GenerateFilterRules := fun pol peers strip => Err "no policy"%string;
  policy_FilterMachinesByACL := fun machine peers rules => peers;
  time_Now := 1;
|}.

Definition database' : db.HSDatabase := {|
  db.TailNode := fun σ machine pol dnsCfg => Err "no such node"%string;
  db.ListPeers := fun σ machine => Ok [];
  db.TailNodes := fun σ peers pol dnsCfg => Ok [];
|}.

Definition mapper' (noise : bool) : Mapper :=
  NewMapper database' (Some x2a) noise (Some tt) "other.net" None
            false true true.

End Demo.

(** ** strings and net/http, as webhandler.go uses them *)

Module strings.

(** [strings.HasSuffix]:
    [len(s) >= len(suffix) && s[len(s)-len(suffix):] == suffix]. *)
Definition HasSuffix (s suffix : string) : bool :=
  (String.length suffix <=? String.length s)%nat
  && String.eqb
       (substring (String.length s - String.length suffix)
                  (String.length suffix) s)
       suffix.

(** [strings.TrimSuffix]: [s] without the suffix when it ends with it,
    else [s]. *)
Definition TrimSuffix (s suffix : string) : string :=
  if HasSuffix s suffix
  then substring 0 (String.length s - String.length suffix) s
  else s.

End strings.

Module http.

Definition StatusFound : Z := 302.
Definition StatusBadRequest : Z := 400.

(** An [http.ResponseWriter]: the header map that [Header()] returns, and
    what [WriteHeader] has sent: the status code with the headers as they
    were at that moment. *)
Record ResponseWriter : Type := {
  Header : gmap string (list string);
  Written : option (Z * gmap string (list string));
}.

(** [w.Header().Set(key, value)]: the values of the key are replaced by the
    one value.  (The keys of this file are in canonical form.) *)
Definition Header_Set (w : ResponseWriter) (key value : string)
    : ResponseWriter :=
  {| Header := <[key := [value]]> (Header w); Written := Written w |}.

(** [w.WriteHeader(code)]: sends the status and the headers; a second call
    sends nothing. *)
Definition WriteHeader (w : ResponseWriter) (code : Z) : ResponseWriter :=
  match Written w with
  | Some _ => w
  | None => {| Header := Header w; Written := Some (code, Header w) |}
  end.

(** A request, with the route variables that [mux.Vars] reads from it. *)
Record Request : Type := { Vars : gmap string string }.

End http.

(** ** webhandler.go *)

(** What the handlers call and the file does not define. *)
Class WebCollaborators : Type := {
  web_error : Type;
  types_RegistrationID : Type;
  types_RegistrationIDFromString :
    string → result web_error types_RegistrationID;
  types_RegistrationID_String : types_RegistrationID → string;
  HTTPError : Type;
  NewHTTPError : Z → string → web_error → HTTPError;
  httpError : http.ResponseWriter → HTTPError → http.ResponseWriter;
}.

(** [WebConfig], of which the handlers read [TargetURL]. *)
Record WebConfig : Type := { TargetURL : string }.

Record Headscale : Type := { cfg : WebConfig }.

Record AuthProviderWeb : Type := { targetURL : string }.

Definition AdminHandler (h : Headscale) (writer : http.ResponseWriter)
    (req : http.Request) : http.ResponseWriter :=
  let targetURL :=
    (strings.TrimSuffix (TargetURL (cfg h)) "/" ++ "/admin/")%string in
  let writer := http.Header_Set writer "Location" targetURL in
  http.WriteHeader writer http.StatusFound.

Section Web.
Context `{WebCollaborators}.

Definition WebRegisterHandler (a : AuthProviderWeb)
    (writer : http.ResponseWriter) (req : http.Request)
    : http.ResponseWriter :=
  let vars := http.Vars req in
  (* a key that the map does not hold reads as the empty string *)
  let registrationIdStr := default ""%string (vars !! "registration_id"%string) in
  match types_RegistrationIDFromString registrationIdStr with
  | Err err =>
      httpError writer
        (NewHTTPError http.StatusBadRequest "invalid registration id" err)
  | Ok registrationId =>
      let targetURL :=
        (strings.TrimSuffix (targetURL a) "/" ++ "/register/"
         ++ types_RegistrationID_String registrationId)%string in
      let writer := http.Header_Set writer "Location" targetURL in
      http.WriteHeader writer http.StatusFound
  end.

End Web.

(** ** More properties in words *)

Section MoreWords.
Context `{Externals}.

(** The last user of a list that has the given login name. *)
Definition last_named (name : string) (users : list types.User.t)
    : option types.User.t :=
  last (filter (fun u => types.User.Name u = name) users).

(** The address of the resolver starts with the NextDNS prefix. *)
Definition is_nextdns (r : dnstype.Resolver.t) : bool :=
  String.prefix "https://dns.nextdns.io" (dnstype.Resolver.Addr r).

(** No resolver of the list has a NextDNS address. *)
Definition no_nextdns (σ : Store) (resolvers : list (option loc)) : Prop :=
  ∀ l r, Some l ∈ resolvers → ress σ !! l = Some r → is_nextdns r = false.

(** How often a character occurs in a string. *)
Fixpoint count_char (c : ascii) (s : string) : nat :=
  match s with
  | EmptyString => 0%nat
  | String c' rest =>
      ((if Ascii.eqb c c' then 1 else 0) + count_char c rest)%nat
  end.

(** The characters that [url.QueryEscape] lets through or produces. *)
Definition query_safe (c : ascii) : bool :=
  url.is_alnum c
  || match c with
     | "-" | "_" | "." | "~" | "%" | "+" => true
     | _ => false
     end%char.

Fixpoint all_chars (P : ascii → bool) (s : string) : bool :=
  match s with
  | EmptyString => true
  | String c rest => P c && all_chars P rest
  end.

(** The attributes that [addNextDNSMetadata] builds for a machine. *)
Definition nextdns_attrs (machine : types.Machine.t) : url.Values :=
  let attrs : url.Values :=
    {[ "device_name"%string := [types.Machine.Hostname machine];
       "device_model"%string :=
         [types.HostInfo.OS (types.Machine.HostInfo machine)] ]} in
  match types.Machine.IPAddresses machine with
  | ip :: _ => url.Add attrs "device_ip" (netip_Addr_String ip)
  | [] => attrs
  end.

(** A resolver of the template and its clone in the result: the clone is a
    new cell, and holds the template's resolver after one tagging. *)
Definition tagged_clone (machine : types.Machine.t) (σ σ' : Store)
    (p p' : option loc) : Prop :=
  ∃ l l' r, p = Some l ∧ p' = Some l'
            ∧ ress σ !! l = Some r
            ∧ (l' ∉ dom (ress σ))
            ∧ ress σ' !! l' = Some (tagged machine r).

(** A pointer of a list valid in [σ0] and its clone, made between the
    stores [σ] and [σ']: a cell that was free, holding the same resolver. *)
Definition copied (σ0 σ σ' : Store) (p p' : option loc) : Prop :=
  ∃ l l' r, p = Some l ∧ p' = Some l'
            ∧ ress σ0 !! l = Some r
            ∧ (l' ∉ dom (ress σ))
            ∧ ress σ' !! l' = Some r.

(** The characters of an encoded query: those of [query_safe] and the two
    separators. *)
Definition query_char (c : ascii) : bool :=
  query_safe c || Ascii.eqb c "&" || Ascii.eqb c "=".

End MoreWords.

Section VisiblePeers.
Context `{Collaborators}.

(** The peers that the requesting node may see: all the candidates under an
    empty rule set, those that the filter keeps otherwise. *)
Definition visible_peers (machine : types.Machine.t)
    (candidates : list types.Machine.t) (rules : list tailcfg_FilterRule)
    : list types.Machine.t :=
  match rules with
  | [] => candidates
  | _ :: _ => policy_FilterMachinesByACL machine candidates rules
  end.

End VisiblePeers.

(** ** More examples *)

Module Cases.

#[local] Existing Instance Demo.externals.

(** A machine whose key the parser of the examples rejects. *)
Definition keyless : types.Machine.t :=
  {| types.Machine.MachineKey := "";
     types.Machine.IPAddresses := [];
     types.Machine.Hostname := "keyless";
     types.Machine.User := Demo.bob;
     types.Machine.HostInfo := {| types.HostInfo.OS := "linux" |} |}.

(** A request without host information. *)
Definition bare_request : tailcfg.MapRequest.t :=
  {| tailcfg.MapRequest.Compress := "";
     tailcfg.MapRequest.Hostinfo := None |}.

(** A database whose node conversion fails. *)
Definition broken_database : db.HSDatabase := {|
  db.TailNode := fun σ machine pol dnsCfg => Err "no such node"%string;
  db.ListPeers := fun σ machine => Ok [Demo.phone];
  db.TailNodes := fun σ peers pol dnsCfg => Ok [];
|}.

Definition broken_mapper : Mapper :=
  NewMapper broken_database (Some x2a) true None "example.com"
            (Some 1%positive) true false false.

(** A store whose resolvers are not NextDNS resolvers. *)
Definition plain_store : Store :=
  {| cfgs := {[ 1%positive :=
                  Demo.config false None [Some 1%positive; Some 2%positive] ]};
     ress := {[ 1%positive := Demo.resolver "9.9.9.9";
                2%positive := Demo.resolver "1.1.1.1" ]} |}.

(** Registration ids of the examples: the strings of 24 characters. *)
#[local] Instance web : WebCollaborators := {|
  web_error := string;
  types_RegistrationID := string;
  types_RegistrationIDFromString := fun s =>
    if (String.length s =? 24)%nat then Ok s
    else Err "registration ID must be 24 characters long"%string;
  types_RegistrationID_String := fun id => id;
  HTTPError := Z * string;
  NewHTTPError := fun code msg err => (code, msg);
  httpError := fun w e =>
    http.WriteHeader w e.1;
|}.

Definition fresh_writer : http.ResponseWriter :=
  {| http.Header := ∅; http.Written := None |}.

Definition request_of (id : string) : http.Request :=
  {| http.Vars := {[ "registration_id"%string := id ]} |}.

End Cases.

(** * Proofs *)

(** ** Bytes and headers *)

Lemma Z_of_byte_of_Z (z : Z) : Z_of_byte (byte_of_Z z) = z mod 2 ^ 8.
Proof.
  unfold Z_of_byte, byte_of_Z. change (2 ^ 8) with 256.
  assert (Hr : 0 <= z mod 256 < 256) by (apply Z.mod_pos_bound; lia).
  destruct (Byte.of_N (Z.to_N (z mod 256))) as [b|] eqn:E.
  - apply Byte.to_of_N in E. rewrite E. rewrite Z2N.id; lia.
  - apply Byte.of_N_None_iff in E. lia.
Qed.

Lemma len_nonneg {A : Type} (l : list A) : 0 <= len l.
Proof. unfold len. lia. Qed.

Lemma len_app {A : Type} (l k : list A) : len (l ++ k) = len l + len k.
Proof. unfold len. rewrite length_app. lia. Qed.

Lemma PutUint32_make (v : Z) :
  binary.PutUint32 (replicate (Z.to_nat 4) x00) v
  = Some [byte_of_Z v; byte_of_Z (Z.shiftr v 8); byte_of_Z (Z.shiftr v 16);
          byte_of_Z (Z.shiftr v 24)].
Proof. reflexivity. Qed.

Lemma testbit_byte_at (v k n : Z) :
  0 <= k → 0 <= n →
  Z.testbit (((v ≫ k) mod 2 ^ 8) ≪ k) n
  = (k <=? n) && (n <? k + 8) && Z.testbit v n.
Proof.
  intros Hk Hn. rewrite Z.shiftl_spec by lia.
  destruct (Z.leb_spec k n); simpl.
  - destruct (Z.ltb_spec n (k + 8)); simpl.
    + rewrite Z.mod_pow2_bits_low by lia.
      rewrite Z.shiftr_spec by lia. f_equal. lia.
    + apply Z.mod_pow2_bits_high. lia.
  - apply Z.testbit_neg_r. lia.
Qed.

(** The four bytes of a header read back as the value modulo 2^32. *)
Lemma Uint32_bytes (v : Z) (rest : list byte) :
  binary.Uint32 (byte_of_Z v :: byte_of_Z (Z.shiftr v 8)
                 :: byte_of_Z (Z.shiftr v 16) :: byte_of_Z (Z.shiftr v 24)
                 :: rest)
  = Some (v mod 2 ^ 32).
Proof.
  unfold binary.Uint32. f_equal. rewrite !Z_of_byte_of_Z.
  apply Z.bits_inj'. intros n Hn.
  rewrite <- (Z.shiftr_0_r v) at 1.
  rewrite <- (Z.shiftl_0_r ((v ≫ 0) mod 2 ^ 8)).
  rewrite !Z.lor_spec, !testbit_byte_at by lia.
  destruct (Z.ltb_spec n 32).
  - rewrite Z.mod_pow2_bits_low by lia.
    destruct (Z.leb_spec 0 n), (Z.ltb_spec n (0 + 8)), (Z.leb_spec 8 n),
      (Z.ltb_spec n (8 + 8)), (Z.leb_spec 16 n), (Z.ltb_spec n (16 + 8)),
      (Z.leb_spec 24 n), (Z.ltb_spec n (24 + 8)); simpl; try lia;
      rewrite ?orb_false_r; reflexivity.
  - rewrite Z.mod_pow2_bits_high by lia.
    destruct (Z.ltb_spec n (0 + 8)), (Z.ltb_spec n (8 + 8)),
      (Z.ltb_spec n (16 + 8)), (Z.ltb_spec n (24 + 8)); try lia;
      rewrite ?andb_false_r; reflexivity.
Qed.

Lemma header_length (n : Z) : List.length (header n) = 4%nat.
Proof. reflexivity. Qed.

Lemma take_frame (payload : list byte) :
  take 4 (frame payload) = header (uint32 (len payload)).
Proof. reflexivity. Qed.

Lemma drop_frame (payload : list byte) : drop 4 (frame payload) = payload.
Proof. reflexivity. Qed.

Lemma Uint32_frame (payload : list byte) :
  binary.Uint32 (take 4 (frame payload)) = Some (len payload mod 2 ^ 32).
Proof.
  rewrite take_frame. unfold header, uint32.
  rewrite Uint32_bytes. rewrite Z.mod_mod by lia. reflexivity.
Qed.

(** ** The serialiser and framer *)

Section Framer.
Context `{Collaborators}.

(** What [marshalMapResponse] does, in all cases. *)
Lemma marshalMapResponse_run (m : Mapper) (resp : tailcfg.MapResponse.t)
    (machineKey : key_MachinePublic) (compression : string) (σ : Store) :
  marshalMapResponse m resp machineKey compression σ
  = let body := compressed compression (serialized σ resp) in
    if isNoise m then Returned (Ok (frame body)) σ
    else match privateKey2019 m with
         | Some k => Returned (Ok (frame (key_SealTo k machineKey body))) σ
         | None => Panicked
         end.
Proof.
  unfold marshalMapResponse, compressed, serialized, zstdEncode, SealTo, frame, header, make_bytes, reservedResponseHeaderSize,
    bind, ret, get_store, panic.
  destruct (isNoise m), (String.eqb compression util_ZstdCompression); simpl;
    try destruct (privateKey2019 m); simpl; rewrite ?PutUint32_make;
    reflexivity.
Qed.

(** The sibling serialiser returns the error of [json.Marshal]. *)
Lemma MarshalResponse_returns_error (resp : tailcfg.MapResponse.t)
    (privateKey : option key_MachinePrivate) (machineKey : key_MachinePublic)
    (σ : Store) (err : error) :
  json_Marshal σ resp = Err err →
  MarshalResponse resp privateKey machineKey σ = Returned (Err err) σ.
Proof.
  intros E. unfold MarshalResponse, bind, get_store, ret. rewrite E.
  reflexivity.
Qed.

(** C6: sealing depends on the transport mode, and compression comes
    before it.  In Noise mode the payload of the frame is the serialised
    response, compressed when the request names the zstd compression
    ([util.ZstdCompression]); in legacy mode it is that same byte string
    sealed to the client's key with the server's private key [k]. *)
Theorem marshalMapResponse_payload (m : Mapper) (resp : tailcfg.MapResponse.t)
    (machineKey : key_MachinePublic) (compression : string) (σ : Store)
    (k : key_MachinePrivate) :
  (isNoise m = false → privateKey2019 m = Some k) →
  marshalMapResponse m resp machineKey compression σ
  = Returned
      (Ok (frame
             (if isNoise m
              then (if String.eqb compression util_ZstdCompression
                    then zstd_EncodeAll (serialized σ resp)
                    else serialized σ resp)
              else key_SealTo k machineKey
                     (if String.eqb compression util_ZstdCompression
                      then zstd_EncodeAll (serialized σ resp)
                      else serialized σ resp))))
      σ.
Proof.
  intros Hk. rewrite marshalMapResponse_run. unfold compressed. simpl.
  destruct (isNoise m); [reflexivity|]. rewrite Hk by reflexivity.
  reflexivity.
Qed.

(** C5, amended: an emitted byte string is a four-byte little-endian header
    and a payload; the header holds the length of the payload modulo 2^32,
    which is the length itself for a payload shorter than 2^32 bytes. *)
Theorem marshalMapResponse_header (m : Mapper) (resp : tailcfg.MapResponse.t)
    (machineKey : key_MachinePublic) (compression : string) (σ σ' : Store)
    (data : list byte) :
  marshalMapResponse m resp machineKey compression σ = Returned (Ok data) σ' →
  data = take 4 data ++ drop 4 data
  ∧ List.length (take 4 data) = 4%nat
  ∧ binary.Uint32 (take 4 data) = Some (len (drop 4 data) mod 2 ^ 32)
  ∧ (len (drop 4 data) < 2 ^ 32 → header_is_length data).
Proof.
  rewrite marshalMapResponse_run. simpl. intros Hrun.
  assert (Hd : ∃ payload, data = frame payload).
  { destruct (isNoise m).
    - inversion Hrun. eauto.
    - destruct (privateKey2019 m); [|discriminate]. inversion Hrun. eauto. }
  destruct Hd as [payload ->].
  rewrite drop_frame, Uint32_frame, take_frame.
  repeat split.
  intros Hlt. unfold header_is_length.
  rewrite drop_frame, Uint32_frame. f_equal.
  apply Z.mod_small. split; [apply len_nonneg | exact Hlt].
Qed.

(** C1: when [json.Marshal] fails, [CreateKeepAliveResponse] of a Noise
    mapper returns no error: it returns the frame of an empty body
    (compressed when the request names zstd). *)
Theorem CreateKeepAliveResponse_swallows_marshal_error (m : Mapper)
    (mapRequest : tailcfg.MapRequest.t) (machine : types.Machine.t)
    (σ : Store) (err : error) :
  isNoise m = true →
  json_Marshal σ keepAliveResponse = Err err →
  CreateKeepAliveResponse m mapRequest machine σ
  = Returned
      (Ok (frame (compressed (tailcfg.MapRequest.Compress mapRequest) [])))
      σ.
Proof.
  intros Hn E. unfold CreateKeepAliveResponse. rewrite Hn.
  rewrite marshalMapResponse_run. simpl. rewrite Hn.
  unfold serialized. rewrite E. reflexivity.
Qed.

End Framer.

(** ** The user profile aggregator *)

Section Profiles.
Context `{Externals}.
Implicit Types (machine : types.Machine.t) (peers : list types.Machine.t).
Implicit Types (u v : types.User.t) (userMap : gmap string types.User.t).

Lemma foldl_snoc_map {A B : Type} (f : A → B) (l : list A) (acc : list B) :
  foldl (fun acc x => acc ++ [f x]) acc l = acc ++ List.map f l.
Proof.
  revert acc. induction l as [|x l IH]; intros acc; simpl.
  - by rewrite app_nil_r.
  - rewrite IH. by rewrite <- app_assoc.
Qed.

Lemma generateUserProfiles_map machine peers (baseDomain : string) :
  generateUserProfiles machine peers baseDomain
  = List.map (fun kv => profile_of baseDomain kv.2)
             (map_to_list (user_map machine peers)).
Proof. unfold generateUserProfiles. by rewrite foldl_snoc_map. Qed.

(** An entry of the map comes from the seed or from a peer. *)
Lemma foldl_insert_lookup_Some peers userMap (name : string) u :
  foldl (fun userMap peer =>
           <[types.User.Name (types.Machine.User peer) := types.Machine.User peer]>
             userMap) userMap peers !! name = Some u →
  userMap !! name = Some u
  ∨ (∃ p, p ∈ peers ∧ types.Machine.User p = u ∧ types.User.Name u = name).
Proof.
  revert userMap. induction peers as [|p peers IH]; intros userMap; simpl.
  - auto.
  - intros Hl. apply IH in Hl as [Hl | (q & Hq & Hu & Hn)].
    + destruct (decide (types.User.Name (types.Machine.User p) = name)) as [E|E].
      * rewrite E, lookup_insert_eq in Hl. inversion Hl; subst u.
        right. exists p. split; [left|]. auto.
      * rewrite lookup_insert_ne in Hl by exact E. auto.
    + right. exists q. split; [by right|]. auto.
Qed.

(** Every name of the seed and of the peers has an entry. *)
Lemma foldl_insert_lookup_is_Some peers userMap (name : string) :
  (is_Some (userMap !! name)
   ∨ ∃ p, p ∈ peers ∧ types.User.Name (types.Machine.User p) = name) →
  is_Some (foldl (fun userMap peer =>
                    <[types.User.Name (types.Machine.User peer) :=
                        types.Machine.User peer]> userMap)
                 userMap peers !! name).
Proof.
  revert userMap. induction peers as [|p peers IH]; intros userMap; simpl.
  - intros [Hs | (p & Hp & _)]; [exact Hs | by apply elem_of_nil in Hp].
  - intros Hor. apply IH.
    destruct (decide (types.User.Name (types.Machine.User p) = name)) as [E|E].
    + left. rewrite E, lookup_insert_eq. eauto.
    + rewrite lookup_insert_ne by exact E.
      destruct Hor as [Hs | (q & Hq & Hn)]; [by left|].
      apply elem_of_cons in Hq as [-> | Hq]; [contradiction|].
      right. eauto.
Qed.

Lemma user_map_lookup_Some machine peers (name : string) u :
  user_map machine peers !! name = Some u →
  u ∈ users_of machine peers ∧ types.User.Name u = name.
Proof.
  unfold user_map, users_of. intros Hl.
  apply foldl_insert_lookup_Some in Hl as [Hl | (p & Hp & Hu & Hn)].
  - destruct (decide (types.User.Name (types.Machine.User machine) = name)) as [E|E].
    + rewrite E, lookup_insert_eq in Hl. inversion Hl; subst u.
      split; [left | exact E].
    + rewrite lookup_insert_ne, lookup_empty in Hl by exact E. discriminate.
  - split; [|exact Hn]. right. rewrite <- Hu.
    apply list_elem_of_In, in_map, list_elem_of_In, Hp.
Qed.

Lemma user_map_lookup_is_Some machine peers u :
  u ∈ users_of machine peers →
  is_Some (user_map machine peers !! types.User.Name u).
Proof.
  unfold user_map, users_of. intros Hu.
  apply foldl_insert_lookup_is_Some.
  apply elem_of_cons in Hu as [-> | Hu].
  - left. rewrite lookup_insert_eq. eauto.
  - right. apply list_elem_of_In, in_map_iff in Hu as (p & Hp & Hin).
    exists p. split; [by apply list_elem_of_In | by rewrite Hp].
Qed.

Lemma elem_of_generateUserProfiles machine peers (baseDomain : string)
    (p : tailcfg.UserProfile.t) :
  p ∈ generateUserProfiles machine peers baseDomain
  ↔ ∃ u, user_map machine peers !! types.User.Name u = Some u
         ∧ p = profile_of baseDomain u.
Proof.
  rewrite generateUserProfiles_map. rewrite list_elem_of_In, in_map_iff. split.
  - intros ([name u] & Hp & Hin). apply list_elem_of_In in Hin.
    apply elem_of_map_to_list in Hin. simpl in Hp.
    destruct (user_map_lookup_Some _ _ _ _ Hin) as [_ Hn].
    exists u. rewrite Hn. auto.
  - intros (u & Hl & ->). exists (types.User.Name u, u). split; [reflexivity|].
    apply list_elem_of_In, elem_of_map_to_list, Hl.
Qed.

(** The login names of the profiles are the names of the users, whatever
    their ids. *)
Lemma generateUserProfiles_names machine peers (baseDomain name : string) :
  (∃ p, p ∈ generateUserProfiles machine peers baseDomain
        ∧ tailcfg.UserProfile.LoginName p = name)
  ↔ (∃ u, u ∈ users_of machine peers ∧ types.User.Name u = name).
Proof.
  split.
  - intros (p & Hp & Hn). apply elem_of_generateUserProfiles in Hp as (u & Hl & ->).
    exists u. split; [|exact Hn]. by apply user_map_lookup_Some in Hl as [? _].
  - intros (u & Hu & Hn). apply user_map_lookup_is_Some in Hu as [v Hv].
    destruct (user_map_lookup_Some _ _ _ _ Hv) as [_ Hnv].
    exists (profile_of baseDomain v). split.
    + apply elem_of_generateUserProfiles. exists v. by rewrite Hnv.
    + simpl. congruence.
Qed.

(** No login name is emitted twice. *)
Lemma generateUserProfiles_NoDup machine peers (baseDomain : string) :
  NoDup (List.map tailcfg.UserProfile.LoginName
           (generateUserProfiles machine peers baseDomain)).
Proof.
  rewrite generateUserProfiles_map, List.map_map. simpl.
  assert (E : List.map (fun kv : string * types.User.t => types.User.Name kv.2)
                (map_to_list (user_map machine peers))
              = (map_to_list (user_map machine peers)).*1).
  { apply map_ext_in. intros [name u] Hin. simpl.
    apply list_elem_of_In, elem_of_map_to_list in Hin.
    by apply user_map_lookup_Some in Hin as [_ ?]. }
  rewrite E. apply NoDup_fst_map_to_list.
Qed.


End Profiles.



(** ** Resolver metadata tagging *)

Section Tagging.
Context `{Externals}.
Implicit Types (σ : Store) (machine : types.Machine.t).
Implicit Types (resolvers : list (option loc)) (l : loc).

(** The query that [url.Values.Encode] builds for a machine. *)
Lemma Encode_attrs machine :
  url.Encode
    (match types.Machine.IPAddresses machine with
     | ip :: _ =>
         url.Add {[ "device_name"%string := [types.Machine.Hostname machine];
                    "device_model"%string :=
                      [types.HostInfo.OS (types.Machine.HostInfo machine)] ]}
                 "device_ip" (netip_Addr_String ip)
     | [] => {[ "device_name"%string := [types.Machine.Hostname machine];
                "device_model"%string :=
                  [types.HostInfo.OS (types.Machine.HostInfo machine)] ]}
     end)
  = nextdns_query machine.
Proof.
  unfold nextdns_query.
  destruct (types.Machine.IPAddresses machine) as [|ip ips];
    vm_compute; reflexivity.
Qed.

Lemma tag_resolver_run machine σ l (r : dnstype.Resolver.t) :
  ress σ !! l = Some r →
  tag_resolver machine (Some l) σ
  = Returned tt {| cfgs := cfgs σ; ress := <[l := tagged machine r]> (ress σ) |}.
Proof.
  intros Hl. unfold tag_resolver, tagged, bind, load_resolver, nextDNSDoHPrefix.
  rewrite Hl.
  destruct (String.prefix "https://dns.nextdns.io" (dnstype.Resolver.Addr r)).
  - unfold store_resolver. rewrite Hl. rewrite Encode_attrs. reflexivity.
  - unfold ret. rewrite insert_id by exact Hl. by destruct σ.
Qed.

Lemma occurrences_cons l (p : option loc) resolvers :
  occurrences l (p :: resolvers)
  = if decide (p = Some l) then S (occurrences l resolvers)
    else occurrences l resolvers.
Proof.
  unfold occurrences. simpl. unfold bool_decide.
  destruct (decide_rel eq p (Some l)); destruct (decide (p = Some l));
    try contradiction; reflexivity.
Qed.

Lemma occurrences_0 l resolvers :
  Some l ∉ resolvers → occurrences l resolvers = 0%nat.
Proof.
  induction resolvers as [|p ps IH]; intros Hnot; [reflexivity|].
  rewrite occurrences_cons. apply not_elem_of_cons in Hnot as [Hne Hnot].
  destruct (decide (p = Some l)); [congruence | auto].
Qed.

(** A resolver listed once (the pointers of the list being distinct) is
    tagged once. *)
Lemma occurrences_NoDup l resolvers :
  NoDup resolvers → Some l ∈ resolvers → occurrences l resolvers = 1%nat.
Proof.
  induction 1 as [|p ps Hnotin Hnodup IH]; intros Hin.
  - by apply elem_of_nil in Hin.
  - rewrite occurrences_cons. destruct (decide (p = Some l)) as [->|Hne].
    + by rewrite occurrences_0.
    + apply elem_of_cons in Hin as [E|Hin]; [congruence | auto].
Qed.

Lemma resolvers_valid_ress σ σ' resolvers :
  dom (ress σ') = dom (ress σ) →
  resolvers_valid σ resolvers → resolvers_valid σ' resolvers.
Proof.
  intros Hdom Hv. unfold resolvers_valid. eapply Forall_impl; [exact Hv|].
  intros p (l & -> & Hs). exists l. split; [reflexivity|].
  apply elem_of_dom. rewrite Hdom. by apply elem_of_dom.
Qed.

(** The loop: each listed resolver is tagged once per listing. *)
Lemma addNextDNSMetadata_run σ resolvers machine :
  resolvers_valid σ resolvers →
  ∃ σ', addNextDNSMetadata resolvers machine σ = Returned tt σ'
        ∧ cfgs σ' = cfgs σ
        ∧ ∀ l, ress σ' !! l
               = Nat.iter (occurrences l resolvers) (tagged machine)
                   <$> ress σ !! l.
Proof.
  unfold addNextDNSMetadata. revert σ.
  induction resolvers as [|p ps IH]; intros σ Hvalid.
  - exists σ. split; [reflexivity|]. split; [reflexivity|].
    intros l. simpl. by destruct (ress σ !! l).
  - apply Forall_cons in Hvalid as [(l0 & -> & [r0 Hr0]) Hvalid].
    simpl. unfold bind. rewrite (tag_resolver_run _ _ _ _ Hr0).
    set (σ1 := {| cfgs := cfgs σ; ress := <[l0 := tagged machine r0]> (ress σ) |}).
    destruct (IH σ1) as (σ' & Hrun & Hcfgs & Hress).
    { apply (resolvers_valid_ress σ); [|exact Hvalid].
      simpl. apply dom_insert_lookup_L. eauto. }
    exists σ'. split; [exact Hrun|]. split; [exact Hcfgs|].
    intros l. rewrite Hress, occurrences_cons. unfold σ1, ress at 1.
    destruct (decide (Some l0 = Some l)) as [E|E].
    + inversion E; subst l0. rewrite lookup_insert_eq, Hr0.
      change (Some (Nat.iter (occurrences l ps) (tagged machine)
                      (tagged machine r0))
              = Some (Nat.iter (S (occurrences l ps)) (tagged machine) r0)).
      by rewrite Nat.iter_succ_r.
    + rewrite lookup_insert_ne by congruence. reflexivity.
Qed.

(** C8: every pointer of the list pointing to a resolver, the tagging
    returns, leaves the configurations alone, and rewrites in place each
    listed resolver whose address starts with the NextDNS prefix: its address
    gets [?] and the query of [nextdns_query] appended, [device_model] and
    [device_name] always and [device_ip] exactly when the machine has an
    address, once per listing.  A resolver whose address does not start with
    the prefix, and a resolver that is not listed, are unchanged. *)
Theorem addNextDNSMetadata_tags σ resolvers machine :
  resolvers_valid σ resolvers →
  ∃ σ', addNextDNSMetadata resolvers machine σ = Returned tt σ'
        ∧ cfgs σ' = cfgs σ
        ∧ dom (ress σ') = dom (ress σ)
        ∧ ∀ l r, ress σ !! l = Some r →
            ress σ' !! l
            = Some (Nat.iter (occurrences l resolvers)
                      (fun r =>
                         if String.prefix "https://dns.nextdns.io"
                                          (dnstype.Resolver.Addr r)
                         then {| dnstype.Resolver.Addr :=
                                   (dnstype.Resolver.Addr r ++ "?"
                                    ++ nextdns_query machine)%string;
                                 dnstype.Resolver.BootstrapResolution :=
                                   dnstype.Resolver.BootstrapResolution r |}
                         else r)
                      r).
Proof.
  intros Hvalid.
  destruct (addNextDNSMetadata_run σ resolvers machine Hvalid)
    as (σ' & Hrun & Hcfgs & Hress).
  exists σ'. split; [exact Hrun|]. split; [exact Hcfgs|]. split.
  - apply set_eq. intros l. rewrite !elem_of_dom, Hress.
    by rewrite fmap_is_Some.
  - intros l r Hl. rewrite Hress, Hl. reflexivity.
Qed.

End Tagging.

(** ** The DNS synthesiser *)

Section Synthesiser.
Context `{Externals}.
Implicit Types (σ : Store) (machine : types.Machine.t).
Implicit Types (peers : list types.Machine.t) (c : tailcfg.DNSConfig.t).
Implicit Types (ps : list (option loc)) (l b : loc).

Lemma bind_Returned {A B : Type} (m : M A) (f : A → M B) σ σ' (a : A) :
  m σ = Returned a σ' → bind m f σ = f a σ'.
Proof. intros E. unfold bind. by rewrite E. Qed.

Lemma bind_Panicked {A B : Type} (m : M A) (f : A → M B) σ :
  m σ = Panicked → bind m f σ = Panicked.
Proof. intros E. unfold bind. by rewrite E. Qed.

Lemma pointers_allocated_weaken σ σ' ps :
  ress σ ⊆ ress σ' → pointers_allocated σ ps → pointers_allocated σ' ps.
Proof.
  intros Hsub Hall. unfold pointers_allocated. eapply Forall_impl; [exact Hall|].
  intros p Hp l ->. destruct (Hp l eq_refl) as [r Hr].
  exists r. eapply lookup_weaken; eauto.
Qed.

Lemma resolvers_valid_allocated σ ps :
  resolvers_valid σ ps → pointers_allocated σ ps.
Proof.
  intros Hv. eapply Forall_impl; [exact Hv|].
  intros p (l & -> & Hs) l' E. by inversion E; subst.
Qed.

Lemma Resolver_Clone_run σ l (r : dnstype.Resolver.t) :
  ress σ !! l = Some r →
  Resolver_Clone (Some l) σ
  = Returned (Some (fresh (dom (ress σ))))
      {| cfgs := cfgs σ;
         ress := <[fresh (dom (ress σ)) :=
                     {| dnstype.Resolver.Addr := dnstype.Resolver.Addr r;
                        dnstype.Resolver.BootstrapResolution :=
                          dnstype.Resolver.BootstrapResolution r |}]> (ress σ) |}.
Proof.
  intros Hr. unfold Resolver_Clone, bind, load_resolver. by rewrite Hr.
Qed.

Lemma clone_list_run σ ps :
  pointers_allocated σ ps →
  ∃ ps' σ', for_each Resolver_Clone ps σ = Returned ps' σ'
            ∧ cfgs σ' = cfgs σ
            ∧ ress σ ⊆ ress σ'
            ∧ Forall2 (cloned σ σ') ps ps'.
Proof.
  revert σ. induction ps as [|p ps IH]; intros σ Hall.
  - exists [], σ. repeat split; [reflexivity | constructor].
  - apply Forall_cons in Hall as [Hp Hall]. destruct p as [l|].
    + destruct (Hp l eq_refl) as [r Hr].
      set (l' := fresh (dom (ress σ))).
      set (r' := {| dnstype.Resolver.Addr := dnstype.Resolver.Addr r;
                    dnstype.Resolver.BootstrapResolution :=
                      dnstype.Resolver.BootstrapResolution r |}).
      set (σa := {| cfgs := cfgs σ; ress := <[l' := r']> (ress σ) |}).
      assert (Hfresh : l' ∉ dom (ress σ)) by apply is_fresh.
      assert (Hsub : ress σ ⊆ ress σa).
      { simpl. apply insert_subseteq. by apply not_elem_of_dom. }
      destruct (IH σa) as (ps' & σ' & Hrun & Hcfgs & Hsub' & Hrel).
      { by apply (pointers_allocated_weaken σ). }
      exists (Some l' :: ps'), σ'. split; [|split; [|split]].
      * simpl. rewrite (bind_Returned _ _ _ _ _ (Resolver_Clone_run σ l r Hr)).
        fold l' r' σa. rewrite (bind_Returned _ _ _ _ _ Hrun). reflexivity.
      * exact Hcfgs.
      * by transitivity (ress σa).
      * constructor.
        -- exists l'. split; [reflexivity|]. split; [exact Hfresh|].
           exists r'. eapply lookup_weaken; [|exact Hsub'].
           simpl. apply lookup_insert_eq.
        -- eapply Forall2_impl; [exact Hrel|].
           intros q q' Hq. destruct q as [k|]; [|exact Hq].
           destruct Hq as (k' & -> & Hk' & Hs). exists k'.
           split; [reflexivity|]. split; [|exact Hs].
           intros Hin. apply Hk'. simpl. rewrite dom_insert_L.
           apply elem_of_union. by right.
    + destruct (IH σ Hall) as (ps' & σ' & Hrun & Hcfgs & Hsub' & Hrel).
      exists (None :: ps'), σ'. split; [|split; [|split]]; try assumption.
      * simpl. rewrite (bind_Returned _ _ σ σ None eq_refl).
        rewrite (bind_Returned _ _ _ _ _ Hrun). reflexivity.
      * constructor; [reflexivity | exact Hrel].
Qed.

Lemma cloned_valid σ σ' σ'' ps ps' :
  ress σ' ⊆ ress σ'' →
  resolvers_valid σ ps → Forall2 (cloned σ σ') ps ps' →
  resolvers_valid σ'' ps' ∧ ∀ l, l ∈ dom (ress σ) → Some l ∉ ps'.
Proof.
  intros Hsub Hv Hrel. induction Hrel as [|p p' ps ps' Hp Hrel IH].
  - split; [constructor|]. intros l _ Hin. by apply elem_of_nil in Hin.
  - apply Forall_cons in Hv as [(l0 & -> & _) Hv].
    destruct (IH Hv) as [IHv IHf].
    destruct Hp as (l' & -> & Hfresh & [r Hr]). split.
    + constructor; [|exact IHv]. exists l'. split; [reflexivity|].
      exists r. eapply lookup_weaken; eauto.
    + intros l Hl Hin. apply elem_of_cons in Hin as [E|Hin].
      * inversion E; subst. contradiction.
      * by apply (IHf l).
Qed.

(** The clone of a configuration: a new cell, whose resolvers are new cells. *)
Lemma DNSConfig_Clone_run σ b c :
  cfgs σ !! b = Some c →
  pointers_allocated σ (tailcfg.DNSConfig.Resolvers c) →
  pointers_allocated σ (tailcfg.DNSConfig.FallbackResolvers c) →
  ∃ c1 σ1,
    DNSConfig_Clone (Some b) σ = Returned (Some (fresh (dom (cfgs σ)))) σ1
    ∧ cfgs σ1 = <[fresh (dom (cfgs σ)) := c1]> (cfgs σ)
    ∧ ress σ ⊆ ress σ1
    ∧ tailcfg.DNSConfig.Domains c1 = tailcfg.DNSConfig.Domains c
    ∧ tailcfg.DNSConfig.Routes c1 = tailcfg.DNSConfig.Routes c
    ∧ tailcfg.DNSConfig.Proxied c1 = tailcfg.DNSConfig.Proxied c
    ∧ (resolvers_valid σ (tailcfg.DNSConfig.Resolvers c) →
       resolvers_valid σ1 (tailcfg.DNSConfig.Resolvers c1)
       ∧ ∀ l, l ∈ dom (ress σ) → Some l ∉ tailcfg.DNSConfig.Resolvers c1).
Proof.
  intros Hc Hrs Hfrs.
  destruct (clone_list_run σ _ Hrs) as (rs' & σa & Hrun1 & Hcfgs1 & Hsub1 & Hrel1).
  destruct (clone_list_run σa (tailcfg.DNSConfig.FallbackResolvers c))
    as (frs' & σb & Hrun2 & Hcfgs2 & Hsub2 & Hrel2).
  { by apply (pointers_allocated_weaken σ). }
  assert (Hcf : cfgs σb = cfgs σ) by congruence.
  eexists _, _. split; [|split; [|split; [|split; [|split; [|split]]]]].
  - unfold DNSConfig_Clone. unfold bind at 1, load_cfg. rewrite Hc.
    rewrite (bind_Returned _ _ _ _ _ Hrun1).
    rewrite (bind_Returned _ _ _ _ _ Hrun2).
    unfold new_cfg. cbv zeta. rewrite Hcf. reflexivity.
  - simpl. reflexivity.
  - simpl. by transitivity (ress σa).
  - reflexivity.
  - reflexivity.
  - reflexivity.
  - simpl. intros Hv. by apply (cloned_valid σ σa σb _ _ Hsub2 Hv).
Qed.

Lemma append_domain_run σ b c (domain : string) :
  cfgs σ !! b = Some c →
  append_domain (Some b) domain σ
  = Returned tt
      {| cfgs := <[b := with_Domains c (tailcfg.DNSConfig.Domains c ++ [domain])]>
                   (cfgs σ);
         ress := ress σ |}.
Proof.
  intros Hc. unfold append_domain, bind, load_cfg, store_cfg. by rewrite !Hc.
Qed.

Lemma with_Routes_id c : with_Routes c (tailcfg.DNSConfig.Routes c) = c.
Proof. by destruct c. Qed.

(** The loop over the users' names, on a configuration with a route map. *)
Lemma set_routes_run (names : list string) σ b c
    (routes : gmap string (list (option loc))) :
  cfgs σ !! b = Some c →
  tailcfg.DNSConfig.Routes c = Some routes →
  for_range (set_route_nil (Some b)) names σ
  = Returned tt
      {| cfgs := <[b := with_Routes c
                          (Some (foldl (fun routes name => <[name := []]> routes)
                                       routes names))]> (cfgs σ);
         ress := ress σ |}.
Proof.
  revert σ c routes. induction names as [|name names IH]; intros σ c routes Hc Hr.
  - simpl. unfold ret. rewrite <- Hr, with_Routes_id, insert_id by exact Hc.
    by destruct σ.
  - simpl. unfold bind at 1.
    unfold set_route_nil, bind at 1, load_cfg. rewrite Hc, Hr.
    unfold store_cfg. rewrite Hc.
    erewrite IH; [| apply lookup_insert_eq | reflexivity].
    simpl. rewrite insert_insert_eq. reflexivity.
Qed.

Lemma for_range_map {A B : Type} (f : A → B) (g : B → M unit) (l : list A) :
  for_range (fun x => g (f x)) l = for_range g (List.map f l).
Proof. induction l as [|x l IH]; simpl; [reflexivity | by rewrite IH]. Qed.

Lemma foldl_insert_nil_lookup (names : list string)
    (routes : gmap string (list (option loc))) (key : string) :
  foldl (fun routes name => <[name := []]> routes) routes names !! key
  = if decide (key ∈ names) then Some [] else routes !! key.
Proof.
  revert routes. induction names as [|name names IH]; intros routes; simpl.
  - destruct (decide (key ∈ [])) as [Hin|]; [by apply elem_of_nil in Hin | done].
  - rewrite IH. destruct (decide (key ∈ names)) as [Hin|Hnin].
    + rewrite decide_True by (by right). reflexivity.
    + destruct (decide (name = key)) as [->|Hne].
      * rewrite decide_True by left. apply lookup_insert_eq.
      * rewrite decide_False.
        -- by apply lookup_insert_ne.
        -- intros Hin. apply elem_of_cons in Hin as [E|Hin]; congruence.
Qed.

Lemma elem_of_user_set machine peers (u : types.User.t) :
  u ∈ user_set machine peers ↔ u ∈ users_of machine peers.
Proof.
  unfold user_set, users_of.
  assert (Hgen : ∀ (s : gset types.User.t),
            u ∈ foldl (fun s p => s ∪ {[types.Machine.User p]}) s peers
            ↔ u ∈ s ∨ u ∈ List.map types.Machine.User peers).
  { induction peers as [|p peers IH]; intros s; simpl.
    - split; [by left | intros [?|Hin]; [done | by apply elem_of_nil in Hin]].
    - rewrite IH, elem_of_union, elem_of_singleton, elem_of_cons. tauto. }
  rewrite Hgen, elem_of_union, elem_of_singleton, elem_of_cons.
  rewrite elem_of_empty. tauto.
Qed.

Lemma magic_dns_run σ b c :
  cfgs σ !! b = Some c →
  magic_dns (Some b) σ = Returned (tailcfg.DNSConfig.Proxied c) σ.
Proof. intros Hc. unfold magic_dns, bind, load_cfg. by rewrite Hc. Qed.

Lemma load_cfg_run σ b c : cfgs σ !! b = Some c → load_cfg (Some b) σ = Returned c σ.
Proof. intros Hc. unfold load_cfg. by rewrite Hc. Qed.

(** C7, amended: on a template with MagicDNS enabled, a route map that is
    not nil, resolver pointers that are not nil and valid fallback pointers,
    the synthesiser returns a clone [b'] of the template whose domain list is
    the template's followed by the one search domain of the requesting user,
    and whose route map is the template's with, for each user of the
    requesting node and of the peers, the key of that user bound to a nil
    target and no other key changed.  The template and the resolvers that
    existed before the call are untouched. *)
Theorem generateDNSConfig_magic_dns σ b c
    (routes : gmap string (list (option loc))) (baseDomain : string)
    machine peers :
  cfgs σ !! b = Some c →
  tailcfg.DNSConfig.Proxied c = true →
  tailcfg.DNSConfig.Routes c = Some routes →
  resolvers_valid σ (tailcfg.DNSConfig.Resolvers c) →
  pointers_allocated σ (tailcfg.DNSConfig.FallbackResolvers c) →
  ∃ b' c' routes' σ',
    generateDNSConfig (Some b) baseDomain machine peers σ
    = Returned (Some b') σ'
    ∧ (b' ∉ dom (cfgs σ))
    ∧ cfgs σ' = <[b' := c']> (cfgs σ)
    ∧ tailcfg.DNSConfig.Domains c'
      = tailcfg.DNSConfig.Domains c
        ++ [(types.User.Name (types.Machine.User machine) ++ "." ++ baseDomain)%string]
    ∧ tailcfg.DNSConfig.Routes c' = Some routes'
    ∧ (∀ u, u ∈ users_of machine peers →
            routes' !! (types.User.Name u ++ "." ++ baseDomain)%string = Some [])
    ∧ (∀ key : string,
         (∀ u, u ∈ users_of machine peers →
               key ≠ (types.User.Name u ++ "." ++ baseDomain)%string) →
         routes' !! key = routes !! key)
    ∧ (∀ l, l ∈ dom (ress σ) → ress σ' !! l = ress σ !! l).
Proof.
  intros Hc Hproxied Hroutes Hvalid Hfallback.
  destruct (DNSConfig_Clone_run σ b c Hc (resolvers_valid_allocated _ _ Hvalid)
              Hfallback)
    as (c1 & σ1 & Hclone & Hcfgs1 & Hsub1 & HD1 & HR1 & HP1 & Hres1).
  destruct (Hres1 Hvalid) as [Hvalid1 Hfresh1]. clear Hres1.
  set (b' := fresh (dom (cfgs σ))) in *.
  assert (Hb' : b' ∉ dom (cfgs σ)) by apply is_fresh.
  assert (Hne : b' ≠ b).
  { intros ->. apply Hb', elem_of_dom. eauto. }
  assert (Hc1 : cfgs σ1 !! b' = Some c1) by (rewrite Hcfgs1; apply lookup_insert_eq).
  assert (Hcb : cfgs σ1 !! b = Some c).
  { rewrite Hcfgs1, lookup_insert_ne by exact Hne. exact Hc. }
  set (names := List.map (magic_name baseDomain)
                  (elements (user_set machine peers))).
  set (c2 := with_Domains c1
               (tailcfg.DNSConfig.Domains c1
                ++ [magic_name baseDomain (types.Machine.User machine)])).
  set (σ2 := {| cfgs := <[b' := c2]> (cfgs σ1); ress := ress σ1 |}).
  set (routes' := foldl (fun routes name => <[name := []]> routes) routes names).
  set (c3 := with_Routes c2 (Some routes')).
  set (σ3 := {| cfgs := <[b' := c3]> (cfgs σ2); ress := ress σ2 |}).
  assert (Hloop : for_range (set_route_nil (Some b')) names σ2 = Returned tt σ3).
  { apply set_routes_run; [apply lookup_insert_eq|].
    simpl. by rewrite HR1. }
  destruct (addNextDNSMetadata_run σ3 (tailcfg.DNSConfig.Resolvers c1) machine)
    as (σ' & Htag & Hcfgs' & Hress'); [exact Hvalid1|].
  exists b', c3, routes', σ'.
  split; [|split; [exact Hb'|split; [|split; [|split; [|split; [|split]]]]]].
  - unfold generateDNSConfig.
    erewrite bind_Returned by exact Hclone.
    erewrite bind_Returned by exact (magic_dns_run _ _ _ Hcb).
    rewrite Hproxied.
    erewrite bind_Returned; cycle 1.
    { erewrite bind_Returned by exact (append_domain_run _ _ _ _ Hc1).
      rewrite (for_range_map (magic_name baseDomain) (set_route_nil (Some b'))).
      erewrite bind_Returned by exact Hloop. reflexivity. }
    erewrite bind_Returned; cycle 1.
    { apply load_cfg_run. simpl. apply lookup_insert_eq. }
    erewrite bind_Returned by exact Htag. reflexivity.
  - rewrite Hcfgs'. simpl. rewrite Hcfgs1. by rewrite !insert_insert_eq.
  - simpl. by rewrite HD1.
  - reflexivity.
  - intros u Hu. unfold routes'. rewrite foldl_insert_nil_lookup.
    rewrite decide_True; [reflexivity|].
    unfold names. apply list_elem_of_In, in_map_iff. exists u.
    split; [reflexivity|]. apply list_elem_of_In, elem_of_elements.
    by apply elem_of_user_set.
  - intros key Hkey. unfold routes'. rewrite foldl_insert_nil_lookup.
    rewrite decide_False; [reflexivity|].
    unfold names. intros Hin. apply list_elem_of_In, in_map_iff in Hin
      as (u & Hu & Hin).
    apply list_elem_of_In, elem_of_elements, elem_of_user_set in Hin.
    by apply (Hkey u Hin).
  - intros l Hl. rewrite Hress'. rewrite occurrences_0 by (by apply Hfresh1).
    simpl. apply elem_of_dom in Hl as [r Hr]. rewrite Hr.
    rewrite (lookup_weaken _ _ _ _ Hr Hsub1). reflexivity.
Qed.

(** C10: on a nil template the synthesiser panics: the clone is nil,
    MagicDNS counts as disabled, the nil template becomes the result and
    reading its resolvers dereferences it.  [NewMapper] accepts nil for
    [dnsCfg]. *)
Theorem generateDNSConfig_nil_panics
    (database : db.HSDatabase) (privateKey : option key_MachinePrivate)
    (noise : bool) (derpMap : option tailcfg_DERPMap) (baseDomain : string)
    (logtail randomClientPort stripEmailDomain : bool) machine peers σ :
  generateDNSConfig
    (dnsCfg (NewMapper database privateKey noise derpMap baseDomain None
               logtail randomClientPort stripEmailDomain))
    baseDomain machine peers σ
  = Panicked.
Proof. reflexivity. Qed.

(** With MagicDNS disabled the result is the template itself, and the
    tagging rewrites the resolvers of the template in place. *)
Lemma generateDNSConfig_disabled_run σ b c (baseDomain : string) machine peers :
  cfgs σ !! b = Some c →
  tailcfg.DNSConfig.Proxied c = false →
  resolvers_valid σ (tailcfg.DNSConfig.Resolvers c) →
  pointers_allocated σ (tailcfg.DNSConfig.FallbackResolvers c) →
  ∃ σ',
    generateDNSConfig (Some b) baseDomain machine peers σ = Returned (Some b) σ'
    ∧ cfgs σ' !! b = Some c
    ∧ ∀ l r, ress σ !! l = Some r →
        ress σ' !! l
        = Some (Nat.iter (occurrences l (tailcfg.DNSConfig.Resolvers c))
                  (tagged machine) r).
Proof.
  intros Hc Hproxied Hvalid Hfallback.
  destruct (DNSConfig_Clone_run σ b c Hc (resolvers_valid_allocated _ _ Hvalid)
              Hfallback)
    as (c1 & σ1 & Hclone & Hcfgs1 & Hsub1 & _).
  assert (Hne : fresh (dom (cfgs σ)) ≠ b).
  { intros E. apply (is_fresh (dom (cfgs σ))). rewrite E.
    apply elem_of_dom. eauto. }
  assert (Hcb : cfgs σ1 !! b = Some c).
  { rewrite Hcfgs1, lookup_insert_ne by exact Hne. exact Hc. }
  assert (Hvalid1 : resolvers_valid σ1 (tailcfg.DNSConfig.Resolvers c)).
  { eapply Forall_impl; [exact Hvalid|]. intros p (l & -> & [r Hr]).
    exists l. split; [reflexivity|]. exists r. eapply lookup_weaken; eauto. }
  destruct (addNextDNSMetadata_run σ1 _ machine Hvalid1)
    as (σ' & Htag & Hcfgs' & Hress').
  exists σ'. split; [|split].
  - unfold generateDNSConfig.
    erewrite bind_Returned by exact Hclone.
    erewrite bind_Returned by exact (magic_dns_run _ _ _ Hcb).
    rewrite Hproxied.
    erewrite bind_Returned by reflexivity.
    erewrite bind_Returned by exact (load_cfg_run _ _ _ Hcb).
    erewrite bind_Returned by exact Htag. reflexivity.
  - by rewrite Hcfgs'.
  - intros l r Hr. rewrite Hress', (lookup_weaken _ _ _ _ Hr Hsub1).
    reflexivity.
Qed.

End Synthesiser.

(** The example of the specification: the resolver
    [https://dns.nextdns.io/abc123] of a node [laptop] running [linux] at
    [100.64.0.5]. *)
Example tagged_laptop :
  tagged Demo.laptop (Demo.resolver "https://dns.nextdns.io/abc123")
  = Demo.resolver
      "https://dns.nextdns.io/abc123?device_ip=100.64.0.5&device_model=linux&device_name=laptop".
Proof. reflexivity. Qed.

(** C2: a template with MagicDNS disabled and a NextDNS resolver.  The call
    returns the template itself and has rewritten the address of the
    template's resolver: the template is not left as it was. *)
Theorem generateDNSConfig_disabled_mutates_template :
  ∃ σ',
    generateDNSConfig (Some 1%positive) "example.com" Demo.laptop
      [Demo.phone] Demo.store_disabled
    = Returned (Some 1%positive) σ'
    ∧ tailcfg.DNSConfig.Proxied (Demo.template false None) = false
    ∧ ress Demo.store_disabled !! 1%positive
      = Some (Demo.resolver "https://dns.nextdns.io/abc123")
    ∧ ress σ' !! 1%positive
      = Some (Demo.resolver
                "https://dns.nextdns.io/abc123?device_ip=100.64.0.5&device_model=linux&device_name=laptop").
Proof.
  eexists. split; [vm_compute; reflexivity|].
  split; [reflexivity|]. split; vm_compute; reflexivity.
Qed.

(** A second call on the same template appends the query once more. *)
Example generateDNSConfig_disabled_twice :
  ∃ σ' σ'',
    generateDNSConfig (Some 1%positive) "example.com" Demo.laptop
      [Demo.phone] Demo.store_disabled
    = Returned (Some 1%positive) σ'
    ∧ generateDNSConfig (Some 1%positive) "example.com" Demo.laptop
        [Demo.phone] σ'
      = Returned (Some 1%positive) σ''
    ∧ ress σ'' !! 1%positive
      = Some (Demo.resolver
                "https://dns.nextdns.io/abc123?device_ip=100.64.0.5&device_model=linux&device_name=laptop?device_ip=100.64.0.5&device_model=linux&device_name=laptop").
Proof.
  eexists _, _. split; [vm_compute; reflexivity|].
  split; vm_compute; reflexivity.
Qed.

(** A template with MagicDNS enabled and a nil route map: the first route
    assignment panics, and nothing is appended or added. *)
Lemma generateDNSConfig_nil_routes_panics :
  cfgs Demo.store_nil_routes !! 1%positive
  = Some (Demo.template true None)
  ∧ tailcfg.DNSConfig.Proxied (Demo.template true None) = true
  ∧ generateDNSConfig (Some 1%positive) "example.com" Demo.laptop
      [Demo.phone] Demo.store_nil_routes
    = Panicked.
Proof. split; [|split]; vm_compute; reflexivity. Qed.

Lemma example_resolvers_valid (c : tailcfg.DNSConfig.t) :
  resolvers_valid (Demo.store_of c) [Some 1%positive; Some 2%positive].
Proof.
  repeat constructor; eexists; (split; [reflexivity|]); vm_compute; eauto.
Qed.

Lemma generateDNSConfig_magic_dns_witness :
  ∃ b' c' routes' σ',
    generateDNSConfig (Some 1%positive) "example.com" Demo.laptop
      [Demo.phone] Demo.store_enabled
    = Returned (Some b') σ'
    ∧ (b' ∉ dom (cfgs Demo.store_enabled))
    ∧ cfgs σ' = <[b' := c']> (cfgs Demo.store_enabled)
    ∧ tailcfg.DNSConfig.Domains c'
      = ["example.com"; "alice.example.com"]%string
    ∧ tailcfg.DNSConfig.Routes c' = Some routes'
    ∧ (∀ u, u ∈ users_of Demo.laptop [Demo.phone] →
            routes' !! (types.User.Name u ++ "." ++ "example.com")%string
            = Some [])
    ∧ (∀ key : string,
         (∀ u, u ∈ users_of Demo.laptop [Demo.phone] →
               key ≠ (types.User.Name u ++ "." ++ "example.com")%string) →
         routes' !! key = (∅ : gmap string (list (option loc))) !! key)
    ∧ (∀ l, l ∈ dom (ress Demo.store_enabled) →
            ress σ' !! l = ress Demo.store_enabled !! l).
Proof.
  apply (generateDNSConfig_magic_dns Demo.store_enabled 1%positive
           (Demo.template true (Some ∅)) ∅
           "example.com" Demo.laptop [Demo.phone]).
  - reflexivity.
  - reflexivity.
  - reflexivity.
  - apply example_resolvers_valid.
  - constructor.
Defined.

Lemma addNextDNSMetadata_tags_witness :
  ∃ σ', addNextDNSMetadata [Some 1%positive; Some 2%positive] Demo.laptop
          Demo.store_disabled
        = Returned tt σ'
        ∧ cfgs σ' = cfgs Demo.store_disabled
        ∧ dom (ress σ') = dom (ress Demo.store_disabled)
        ∧ ∀ l r, ress Demo.store_disabled !! l = Some r →
            ress σ' !! l
            = Some (Nat.iter (occurrences l [Some 1%positive; Some 2%positive])
                      (fun r =>
                         if String.prefix "https://dns.nextdns.io"
                                          (dnstype.Resolver.Addr r)
                         then {| dnstype.Resolver.Addr :=
                                   (dnstype.Resolver.Addr r ++ "?"
                                    ++ nextdns_query Demo.laptop)%string;
                                 dnstype.Resolver.BootstrapResolution :=
                                   dnstype.Resolver.BootstrapResolution r |}
                         else r)
                      r).
Proof.
  apply (addNextDNSMetadata_tags Demo.store_disabled
           [Some 1%positive; Some 2%positive] Demo.laptop).
  apply example_resolvers_valid.
Defined.

(** ** The two operations of the mapper *)

Section Operations.
Context `{E : Externals}.
Implicit Types (m : Mapper) (σ : Store) (machine : types.Machine.t).
Implicit Types (mapRequest : tailcfg.MapRequest.t).

Lemma trace_hostname_run mapRequest (hostinfo : tailcfg.Hostinfo.t) σ :
  tailcfg.MapRequest.Hostinfo mapRequest = Some hostinfo →
  trace_hostname mapRequest σ
  = Returned (tailcfg.Hostinfo.Hostname hostinfo) σ.
Proof. intros Hh. unfold trace_hostname. by rewrite Hh. Qed.

(** C9: the keepalive response does not depend on the response builder.
    Two mappers that agree on the transport mode and on the private key, in
    two worlds that agree on the compression, on the sealing, on the parsing
    of the machine key and on the serialisation of the one object
    [keepAliveResponse], whatever their databases, policies, DNS templates,
    relay maps and base domains, return the same
    bytes; the store is not touched; in Noise mode the bytes are the frame of
    the serialised [keepAliveResponse]; in legacy mode they are the frame of
    the same serialisation sealed with the private key to the parsed machine
    key, the error of the parsing when the machine key does not parse, and
    a panic when the mapper has no private key; and that object has the
    keepalive flag set and every other field at its zero value. *)
Theorem CreateKeepAliveResponse_skips_builder (C C' : Collaborators) m m'
    mapRequest machine σ :
  isNoise m = isNoise m' →
  privateKey2019 m = privateKey2019 m' →
  @json_Marshal E C σ keepAliveResponse = @json_Marshal E C' σ keepAliveResponse →
  @util_ZstdCompression E C = @util_ZstdCompression E C' →
  (∀ body, @zstd_EncodeAll E C body = @zstd_EncodeAll E C' body) →
  (∀ k p body, @key_SealTo E C k p body = @key_SealTo E C' k p body) →
  @parse_machine_key E C machine = @parse_machine_key E C' machine →
  @CreateKeepAliveResponse E C m mapRequest machine σ
  = @CreateKeepAliveResponse E C' m' mapRequest machine σ
  ∧ (∀ out σ', @CreateKeepAliveResponse E C m mapRequest machine σ
               = Returned out σ' → σ' = σ)
  ∧ (isNoise m = true →
     @CreateKeepAliveResponse E C m mapRequest machine σ
     = Returned
         (Ok (frame
                (@compressed E C (tailcfg.MapRequest.Compress mapRequest)
                   (@serialized E C σ keepAliveResponse))))
         σ)
  ∧ (isNoise m = false →
     ∀ (machineKey : key_MachinePublic) (k : key_MachinePrivate),
       @parse_machine_key E C machine = Ok machineKey →
       privateKey2019 m = Some k →
       @CreateKeepAliveResponse E C m mapRequest machine σ
       = Returned
           (Ok (frame
                  (@key_SealTo E C k machineKey
                     (@compressed E C (tailcfg.MapRequest.Compress mapRequest)
                        (@serialized E C σ keepAliveResponse)))))
           σ)
  ∧ (isNoise m = false →
     ∀ err : error,
       @parse_machine_key E C machine = Err err →
       @CreateKeepAliveResponse E C m mapRequest machine σ
       = Returned (Err err) σ)
  ∧ (isNoise m = false →
     ∀ machineKey : key_MachinePublic,
       @parse_machine_key E C machine = Ok machineKey →
       privateKey2019 m = None →
       @CreateKeepAliveResponse E C m mapRequest machine σ = Panicked)
  ∧ keepAliveResponse
    = {| tailcfg.MapResponse.KeepAlive := true;
         tailcfg.MapResponse.Node := None;
         tailcfg.MapResponse.DERPMap := None;
         tailcfg.MapResponse.Peers := [];
         tailcfg.MapResponse.DNSConfig := None;
         tailcfg.MapResponse.Domain := "";
         tailcfg.MapResponse.CollectServices := "";
         tailcfg.MapResponse.PacketFilter := [];
         tailcfg.MapResponse.UserProfiles := [];
         tailcfg.MapResponse.SSHPolicy := None;
         tailcfg.MapResponse.ControlTime := None;
         tailcfg.MapResponse.Debug := None |}.
Proof.
  intros Hnoise Hkey Hjson Hname Hzstd Hseal Hparse.
  assert (Hbody : ∀ compression,
            @compressed E C compression (@serialized E C σ keepAliveResponse)
            = @compressed E C' compression (@serialized E C' σ keepAliveResponse)).
  { intros compression. unfold compressed, serialized. rewrite Hjson, Hname.
    destruct (String.eqb compression util_ZstdCompression);
      [apply Hzstd | reflexivity]. }
  split; [|split; [|split; [|split; [|split; [|split]]]]].
  - unfold CreateKeepAliveResponse. rewrite <- Hnoise, <- Hparse.
    destruct (isNoise m) eqn:En.
    + rewrite !marshalMapResponse_run. simpl.
      rewrite <- Hnoise, En, Hbody. reflexivity.
    + destruct (@parse_machine_key E C machine) as [machineKey|err];
        [|reflexivity].
      rewrite !marshalMapResponse_run. simpl.
      rewrite <- Hnoise, En, <- Hkey, Hbody.
      destruct (privateKey2019 m); [|reflexivity]. by rewrite Hseal.
  - intros out σ'. unfold CreateKeepAliveResponse.
    destruct (isNoise m) eqn:En.
    + rewrite marshalMapResponse_run. simpl. rewrite En. by inversion 1.
    + destruct (@parse_machine_key E C machine) as [machineKey|err].
      * rewrite marshalMapResponse_run. simpl. rewrite En.
        destruct (privateKey2019 m); [by inversion 1 | discriminate].
      * by inversion 1.
  - intros En. unfold CreateKeepAliveResponse. rewrite En.
    rewrite marshalMapResponse_run. simpl. by rewrite En.
  - intros En machineKey k Hp Hk. unfold CreateKeepAliveResponse.
    rewrite En, Hp, marshalMapResponse_run. simpl. by rewrite En, Hk.
  - intros En err Hp. unfold CreateKeepAliveResponse. by rewrite En, Hp.
  - intros En machineKey Hp Hk. unfold CreateKeepAliveResponse.
    rewrite En, Hp, marshalMapResponse_run. simpl. by rewrite En, Hk.
  - reflexivity.
Qed.

Context `{C : !Collaborators}.

(** The errors of the builder's steps are returned, and no bytes with them. *)
Lemma CreateMapResponse_returns_builder_error m mapRequest machine
    (pol : option policy_ACLPolicy) σ σ' (err : error) :
  fullMapResponse m mapRequest machine pol σ = Returned (Err err) σ' →
  CreateMapResponse m mapRequest machine pol σ = Returned (Err err) σ'.
Proof.
  intros Hfull. unfold CreateMapResponse.
  erewrite bind_Returned by exact Hfull. reflexivity.
Qed.

Lemma fullMapResponse_returns_TailNode_error m mapRequest machine
    (pol : option policy_ACLPolicy) σ (hostinfo : tailcfg.Hostinfo.t)
    (err : error) :
  tailcfg.MapRequest.Hostinfo mapRequest = Some hostinfo →
  db.TailNode (db m) σ machine pol (dnsCfg m) = Err err →
  fullMapResponse m mapRequest machine pol σ = Returned (Err err) σ.
Proof.
  intros Hh Hnode. unfold fullMapResponse.
  erewrite bind_Returned by exact (trace_hostname_run _ _ _ Hh).
  erewrite bind_Returned by reflexivity. by rewrite Hnode.
Qed.

Lemma fullMapResponse_returns_ListPeers_error m mapRequest machine
    (pol : option policy_ACLPolicy) σ (hostinfo : tailcfg.Hostinfo.t)
    (node : tailcfg_Node) (err : error) :
  tailcfg.MapRequest.Hostinfo mapRequest = Some hostinfo →
  db.TailNode (db m) σ machine pol (dnsCfg m) = Ok node →
  db.ListPeers (db m) σ machine = Err err →
  fullMapResponse m mapRequest machine pol σ = Returned (Err err) σ.
Proof.
  intros Hh Hnode Hpeers. unfold fullMapResponse.
  erewrite bind_Returned by exact (trace_hostname_run _ _ _ Hh).
  erewrite bind_Returned by reflexivity. by rewrite Hnode, Hpeers.
Qed.

Lemma fullMapResponse_returns_rules_error m mapRequest machine
    (pol : option policy_ACLPolicy) σ (hostinfo : tailcfg.Hostinfo.t)
    (node : tailcfg_Node) (peers : list types.Machine.t) (err : error) :
  tailcfg.MapRequest.Hostinfo mapRequest = Some hostinfo →
  db.TailNode (db m) σ machine pol (dnsCfg m) = Ok node →
  db.ListPeers (db m) σ machine = Ok peers →
  policy_GenerateFilterRules pol peers (stripEmailDomain m) = Err err →
  fullMapResponse m mapRequest machine pol σ = Returned (Err err) σ.
Proof.
  intros Hh Hnode Hpeers Hrules. unfold fullMapResponse.
  erewrite bind_Returned by exact (trace_hostname_run _ _ _ Hh).
  erewrite bind_Returned by reflexivity. by rewrite Hnode, Hpeers, Hrules.
Qed.

Lemma CreateMapResponse_returns_key_error m mapRequest machine
    (pol : option policy_ACLPolicy) σ σ' (resp : tailcfg.MapResponse.t)
    (err : error) :
  fullMapResponse m mapRequest machine pol σ = Returned (Ok resp) σ' →
  isNoise m = false →
  parse_machine_key machine = Err err →
  CreateMapResponse m mapRequest machine pol σ = Returned (Err err) σ'.
Proof.
  intros Hfull Hnoise Hparse. unfold CreateMapResponse.
  erewrite bind_Returned by exact Hfull. by rewrite Hnoise, Hparse.
Qed.

(** C4: the peers of the response.  When the steps of the builder succeed,
    the response is built; its packet filter is the rule set generated from
    the candidate peers of [ListPeers]; its peers are the conversion of all
    the candidates when the rule set is empty, and of the candidates that
    [FilterMachinesByACL] keeps for the requesting node under those rules
    when it is not; the profiles and the DNS configuration are those of the
    same peers. *)
Theorem fullMapResponse_peers m mapRequest machine
    (pol : option policy_ACLPolicy) σ σ' (hostinfo : tailcfg.Hostinfo.t)
    (node : tailcfg_Node) (candidates visible : list types.Machine.t)
    (rules : list tailcfg_FilterRule) (sshPolicy : option tailcfg_SSHPolicy)
    (nodePeers : list tailcfg_Node) (dnsConfig : option loc) :
  tailcfg.MapRequest.Hostinfo mapRequest = Some hostinfo →
  db.TailNode (db m) σ machine pol (dnsCfg m) = Ok node →
  db.ListPeers (db m) σ machine = Ok candidates →
  policy_GenerateFilterRules pol candidates (stripEmailDomain m)
  = Ok (rules, sshPolicy) →
  visible = match rules with
            | [] => candidates
            | _ :: _ => policy_FilterMachinesByACL machine candidates rules
            end →
  db.TailNodes (db m) σ visible pol (dnsCfg m) = Ok nodePeers →
  generateDNSConfig (dnsCfg m) (baseDomain m) machine visible σ
  = Returned dnsConfig σ' →
  ∃ resp,
    fullMapResponse m mapRequest machine pol σ = Returned (Ok resp) σ'
    ∧ tailcfg.MapResponse.Peers resp = nodePeers
    ∧ tailcfg.MapResponse.PacketFilter resp = rules
    ∧ tailcfg.MapResponse.UserProfiles resp
      = generateUserProfiles machine visible (baseDomain m)
    ∧ tailcfg.MapResponse.DNSConfig resp = dnsConfig
    ∧ tailcfg.MapResponse.KeepAlive resp = false.
Proof.
  intros Hh Hnode Hpeers Hrules Hvisible Hnodes Hdns.
  assert (Hfilter : (if 0 <? len rules
                     then policy_FilterMachinesByACL machine candidates rules
                     else candidates) = visible).
  { rewrite Hvisible. destruct rules; [reflexivity|].
    unfold len. simpl length. by rewrite (proj2 (Z.ltb_lt _ _)) by lia. }
  eexists. split.
  - unfold fullMapResponse.
    erewrite bind_Returned by exact (trace_hostname_run _ _ _ Hh).
    erewrite bind_Returned by reflexivity.
    rewrite Hnode, Hpeers, Hrules. cbv zeta. rewrite Hfilter, Hnodes.
    erewrite bind_Returned by exact Hdns.
    erewrite bind_Returned by exact (trace_hostname_run _ _ _ Hh).
    reflexivity.
  - repeat split.
Qed.

End Operations.

(** ** The operations in the example world *)

Lemma len_huge_body : len Demo.huge_body = 2 ^ 32.
Proof.
  unfold Demo.huge_body, len. rewrite length_replicate.
  rewrite Z2Nat.id by lia. reflexivity.
Qed.

(** A serialised response of 2^32 bytes, sent uncompressed in Noise mode:
    the header reads 0, not the length of the payload. *)
Lemma marshalMapResponse_header_wraps :
  ∃ data,
    @marshalMapResponse _ (Demo.collaborators Demo.marshal_huge)
      (Demo.mapper true None) keepAliveResponse x00 ""
      Demo.store_disabled
    = Returned (Ok data) Demo.store_disabled
    ∧ ¬ header_is_length data.
Proof.
  exists (frame Demo.huge_body). split.
  - rewrite marshalMapResponse_run. reflexivity.
  - unfold header_is_length. rewrite Uint32_frame, drop_frame, len_huge_body.
    intros Hc. vm_compute in Hc. discriminate Hc.
Qed.

Lemma marshalMapResponse_header_witness :
  ∃ data,
    data = take 4 data ++ drop 4 data
    ∧ List.length (take 4 data) = 4%nat
    ∧ binary.Uint32 (take 4 data) = Some (len (drop 4 data) mod 2 ^ 32)
    ∧ (len (drop 4 data) < 2 ^ 32 → header_is_length data).
Proof.
  eexists.
  eapply (@marshalMapResponse_header _ (Demo.collaborators Demo.marshal)
            (Demo.mapper false None) keepAliveResponse x07 "zstd"
            Demo.store_disabled).
  vm_compute. reflexivity.
Defined.

Lemma marshalMapResponse_payload_witness :
  @marshalMapResponse _ (Demo.collaborators Demo.marshal)
    (Demo.mapper false None) keepAliveResponse x07 "zstd"
    Demo.store_disabled
  = Returned
      (Ok (frame
             (Demo.seal x2a x07
                (x28 :: xb5 :: x2f :: xfd
                 :: list_byte_of_string "{KeepAlive:true}"))))
      Demo.store_disabled.
Proof.
  apply (@marshalMapResponse_payload _ (Demo.collaborators Demo.marshal)
           (Demo.mapper false None) keepAliveResponse x07 "zstd"
           Demo.store_disabled x2a).
  reflexivity.
Defined.

Lemma CreateKeepAliveResponse_swallows_marshal_error_witness :
  @CreateKeepAliveResponse _ (Demo.collaborators Demo.marshal_fails)
    (Demo.mapper true None) (Demo.request "") Demo.laptop
    Demo.store_disabled
  = Returned (Ok [x00; x00; x00; x00]) Demo.store_disabled.
Proof.
  apply (@CreateKeepAliveResponse_swallows_marshal_error _
           (Demo.collaborators Demo.marshal_fails)
           (Demo.mapper true None) (Demo.request "") Demo.laptop
           Demo.store_disabled "json: unsupported value"%string);
    reflexivity.
Defined.

Lemma CreateKeepAliveResponse_skips_builder_witness :
  @CreateKeepAliveResponse _ (Demo.collaborators Demo.marshal)
    (Demo.mapper false (Some 1%positive)) (Demo.request "zstd")
    Demo.laptop Demo.store_enabled
  = @CreateKeepAliveResponse _ Demo.collaborators'
      (Demo.mapper' false) (Demo.request "zstd") Demo.laptop
      Demo.store_enabled
  ∧ @CreateKeepAliveResponse _ (Demo.collaborators Demo.marshal)
      (Demo.mapper false (Some 1%positive)) (Demo.request "zstd")
      Demo.laptop Demo.store_enabled
    = Returned
        (Ok (frame
               (Demo.seal x2a x6d
                  (x28 :: xb5 :: x2f :: xfd
                   :: list_byte_of_string "{KeepAlive:true}"))))
        Demo.store_enabled.
Proof.
  destruct (@CreateKeepAliveResponse_skips_builder _
              (Demo.collaborators Demo.marshal) Demo.collaborators'
              (Demo.mapper false (Some 1%positive)) (Demo.mapper' false)
              (Demo.request "zstd") Demo.laptop Demo.store_enabled
              eq_refl eq_refl eq_refl eq_refl
              (fun _ => eq_refl) (fun _ _ _ => eq_refl) eq_refl)
    as (Hsame & _ & _ & Hlegacy & _).
  split; [exact Hsame|].
  exact (Hlegacy eq_refl x6d x2a eq_refl eq_refl).
Defined.

Lemma fullMapResponse_peers_witness :
  ∃ σ' dnsConfig resp,
    @fullMapResponse _ (Demo.collaborators Demo.marshal)
      (Demo.mapper true (Some 1%positive)) (Demo.request "")
      Demo.laptop (Some tt) Demo.store_enabled
    = Returned (Ok resp) σ'
    ∧ tailcfg.MapResponse.Peers resp = []
    ∧ tailcfg.MapResponse.PacketFilter resp = ["accept alice"%string]
    ∧ tailcfg.MapResponse.UserProfiles resp
      = generateUserProfiles Demo.laptop [] "example.com"
    ∧ tailcfg.MapResponse.DNSConfig resp = dnsConfig
    ∧ tailcfg.MapResponse.KeepAlive resp = false.
Proof.
  eexists _, _.
  eapply (@fullMapResponse_peers _ (Demo.collaborators Demo.marshal)
            (Demo.mapper true (Some 1%positive)) (Demo.request "")
            Demo.laptop (Some tt) Demo.store_enabled _
            {| tailcfg.Hostinfo.Hostname := "laptop" |} "laptop"%string
            [Demo.phone] [] ["accept alice"%string] None [] _).
  - reflexivity.
  - reflexivity.
  - reflexivity.
  - reflexivity.
  - reflexivity.
  - reflexivity.
  - vm_compute. reflexivity.
Defined.

(** * Further properties of the code *)

(** ** The serialiser: outcomes, streams of frames, the sibling *)

Section FramerMore.
Context `{Collaborators}.
Implicit Types (m : Mapper) (resp : tailcfg.MapResponse.t) (σ : Store).

(** X1: [marshalMapResponse] never returns an error and never touches the
    store.  It panics exactly in legacy mode without a private key; in every
    other case it returns at least the four bytes of the header. *)
Theorem marshalMapResponse_outcome m resp (machineKey : key_MachinePublic)
    (compression : string) σ :
  (isNoise m = false ∧ privateKey2019 m = None
   ∧ marshalMapResponse m resp machineKey compression σ = Panicked)
  ∨ (¬ (isNoise m = false ∧ privateKey2019 m = None)
     ∧ ∃ data, marshalMapResponse m resp machineKey compression σ
               = Returned (Ok data) σ
               ∧ 4 <= len data).
Proof.
  rewrite marshalMapResponse_run. cbv zeta.
  destruct (isNoise m) eqn:En.
  - right. split; [intros [? _]; discriminate|].
    eexists. split; [reflexivity|].
    unfold frame. rewrite len_app. pose proof (len_nonneg
      (compressed compression (serialized σ resp))). unfold len at 1. simpl. lia.
  - destruct (privateKey2019 m) as [k|] eqn:Ek.
    + right. split; [intros [_ ?]; discriminate|].
      eexists. split; [reflexivity|].
      unfold frame. rewrite len_app.
      pose proof (len_nonneg (key_SealTo k machineKey
        (compressed compression (serialized σ resp)))).
      unfold len at 1. simpl. lia.
    + left. auto.
Qed.

(** X2: frames can be read back from a stream.  When the payload is shorter
    than 2^32 bytes, whatever bytes follow the emitted frame, the first four
    bytes give the length of the payload, that many bytes after them are the
    payload, and what remains is what followed. *)
Theorem marshalMapResponse_stream m resp (machineKey : key_MachinePublic)
    (compression : string) σ σ' (data rest : list byte) :
  marshalMapResponse m resp machineKey compression σ = Returned (Ok data) σ' →
  len data < 2 ^ 32 + 4 →
  ∃ n : Z,
    binary.Uint32 (data ++ rest) = Some n
    ∧ n = len data - 4
    ∧ take (Z.to_nat n) (drop 4 (data ++ rest)) = drop 4 data
    ∧ drop (Z.to_nat n) (drop 4 (data ++ rest)) = rest.
Proof.
  rewrite marshalMapResponse_run. cbv zeta. intros Hrun Hlen.
  assert (Hd : ∃ payload, data = frame payload).
  { destruct (isNoise m).
    - inversion Hrun. eauto.
    - destruct (privateKey2019 m); [|discriminate]. inversion Hrun. eauto. }
  destruct Hd as [payload ->]. clear Hrun.
  assert (Hp : len payload < 2 ^ 32).
  { unfold frame in Hlen. rewrite len_app in Hlen.
    unfold len in Hlen at 1. simpl in Hlen. lia. }
  exists (len payload).
  assert (Hn : Z.to_nat (len payload) = List.length payload)
    by (unfold len; lia).
  split; [|split; [|split]].
  - unfold frame, header. cbn [app]. rewrite Uint32_bytes.
    unfold uint32. rewrite Z.mod_mod by lia.
    f_equal. apply Z.mod_small. split; [apply len_nonneg | exact Hp].
  - unfold frame. rewrite len_app. unfold len at 2. simpl. lia.
  - rewrite Hn. unfold frame, header. simpl. apply take_app_length.
  - rewrite Hn. unfold frame, header. simpl. apply drop_app_length.
Qed.

(** X3: [MarshalResponse], unlike [marshalMapResponse], always returns,
    leaves the store alone, and returns an error exactly when [json.Marshal]
    fails, that error and no other; without an error its bytes are the
    serialised response, sealed when a private key is given. *)
Theorem MarshalResponse_outcome resp (privateKey : option key_MachinePrivate)
    (machineKey : key_MachinePublic) σ :
  ∃ r, MarshalResponse resp privateKey machineKey σ = Returned r σ
       ∧ (∀ err, r = Err err ↔ json_Marshal σ resp = Err err)
       ∧ (∀ bytes, r = Ok bytes →
            ∃ body, json_Marshal σ resp = Ok body
                    ∧ bytes = match privateKey with
                              | Some k => key_SealTo k machineKey body
                              | None => body
                              end).
Proof.
  unfold MarshalResponse, bind, get_store, ret.
  destruct (json_Marshal σ resp) as [body|e] eqn:Ej.
  - destruct privateKey as [k|]; eexists; (split; [reflexivity|]); split.
    + intros err. split; discriminate.
    + intros bytes Hb. inversion Hb. eauto.
    + intros err. split; discriminate.
    + intros bytes Hb. inversion Hb. eauto.
  - eexists. split; [reflexivity|]. split.
    + intros err. split; intros Hr; inversion Hr; reflexivity.
    + intros bytes Hb. discriminate.
Qed.

(** X4: the two serialisers compose.  Without compression, what
    [marshalMapResponse] emits is the frame of what [MarshalResponse]
    returns for the same response, with no key in Noise mode and with the
    mapper's private key in legacy mode. *)
Theorem marshalMapResponse_frames_MarshalResponse m resp
    (machineKey : key_MachinePublic) (compression : string) σ
    (bytes : list byte) :
  String.eqb compression util_ZstdCompression = false →
  (isNoise m = false → is_Some (privateKey2019 m)) →
  MarshalResponse resp (if isNoise m then None else privateKey2019 m)
    machineKey σ
  = Returned (Ok bytes) σ →
  marshalMapResponse m resp machineKey compression σ
  = Returned (Ok (frame bytes)) σ.
Proof.
  intros Hc Hk. rewrite marshalMapResponse_run. cbv zeta.
  unfold MarshalResponse, bind, get_store, ret, compressed, serialized.
  rewrite Hc.
  destruct (json_Marshal σ resp) as [body|e]; [|destruct (isNoise m); discriminate].
  destruct (isNoise m).
  - intros Hm. inversion Hm. reflexivity.
  - destruct (Hk eq_refl) as [k Hkey]. rewrite Hkey.
    intros Hm. inversion Hm. reflexivity.
Qed.

End FramerMore.

Lemma marshalMapResponse_stream_witness :
  ∃ data n,
    binary.Uint32 (data ++ [x01; x02]) = Some n
    ∧ n = len data - 4
    ∧ take (Z.to_nat n) (drop 4 (data ++ [x01; x02])) = drop 4 data
    ∧ drop (Z.to_nat n) (drop 4 (data ++ [x01; x02])) = [x01; x02].
Proof.
  eexists.
  eapply (@marshalMapResponse_stream _ (Demo.collaborators Demo.marshal)
            (Demo.mapper false None) keepAliveResponse x07 "zstd"
            Demo.store_disabled).
  - vm_compute. reflexivity.
  - vm_compute. reflexivity.
Defined.

Lemma marshalMapResponse_frames_MarshalResponse_witness :
  @marshalMapResponse _ (Demo.collaborators Demo.marshal)
    (Demo.mapper false None) keepAliveResponse x07 "" Demo.store_disabled
  = Returned
      (Ok (frame (Demo.seal x2a x07 (list_byte_of_string "{KeepAlive:true}"))))
      Demo.store_disabled.
Proof.
  apply (@marshalMapResponse_frames_MarshalResponse _
           (Demo.collaborators Demo.marshal) (Demo.mapper false None)
           keepAliveResponse x07 "" Demo.store_disabled).
  - reflexivity.
  - intros _. eexists. reflexivity.
  - reflexivity.
Defined.

(** ** The aggregator: what holds for every input *)

Section ProfilesMore.
Context `{Externals}.
Implicit Types (machine : types.Machine.t) (peers : list types.Machine.t).
Implicit Types (u v : types.User.t).

Lemma user_map_snoc machine peers (peer : types.Machine.t) :
  user_map machine (peers ++ [peer])
  = <[types.User.Name (types.Machine.User peer) := types.Machine.User peer]>
      (user_map machine peers).
Proof. unfold user_map. by rewrite foldl_app. Qed.

Lemma last_named_snoc (name : string) (users : list types.User.t) u :
  last_named name (users ++ [u])
  = if decide (types.User.Name u = name) then Some u else last_named name users.
Proof.
  unfold last_named. rewrite filter_app, filter_cons.
  destruct (decide (types.User.Name u = name)).
  - rewrite filter_nil. apply last_snoc.
  - by rewrite filter_nil, app_nil_r.
Qed.

(** The entry of a name is the last user of that name. *)
Lemma user_map_last_named machine peers (name : string) :
  user_map machine peers !! name = last_named name (users_of machine peers).
Proof.
  induction peers as [|peer peers IH] using rev_ind.
  - unfold user_map, users_of, last_named. simpl. rewrite filter_cons, filter_nil.
    destruct (decide (types.User.Name (types.Machine.User machine) = name)) as [E|E].
    + by rewrite E, lookup_insert_eq.
    + by rewrite lookup_insert_ne, lookup_empty.
  - rewrite user_map_snoc. unfold users_of. rewrite map_app. simpl.
    rewrite app_comm_cons, last_named_snoc. fold (users_of machine peers).
    destruct (decide (types.User.Name (types.Machine.User peer) = name)) as [E|E].
    + by rewrite E, lookup_insert_eq.
    + by rewrite lookup_insert_ne.
Qed.

Lemma user_map_size machine peers :
  (1 <= size (user_map machine peers) <= 1 + List.length peers)%nat.
Proof.
  induction peers as [|peer peers IH] using rev_ind.
  - unfold user_map. simpl. rewrite map_size_insert, lookup_empty, map_size_empty.
    lia.
  - rewrite user_map_snoc, map_size_insert, length_app. simpl.
    destruct (user_map machine peers !! _); simpl; lia.
Qed.

(** X5: for every node, peers and base domain, the login names of the
    emitted profiles are exactly the names of the users of the node and of
    the peers, no login name is emitted twice, the node's own user always
    has a profile, and there are at most one profile more than peers. *)
Theorem generateUserProfiles_names_exact machine peers (baseDomain : string) :
  (∀ name : string,
     (∃ p, p ∈ generateUserProfiles machine peers baseDomain
           ∧ tailcfg.UserProfile.LoginName p = name)
     ↔ (∃ u, u ∈ users_of machine peers ∧ types.User.Name u = name))
  ∧ NoDup (List.map tailcfg.UserProfile.LoginName
             (generateUserProfiles machine peers baseDomain))
  ∧ (∃ p, p ∈ generateUserProfiles machine peers baseDomain
          ∧ tailcfg.UserProfile.LoginName p
            = types.User.Name (types.Machine.User machine))
  ∧ (1 <= List.length (generateUserProfiles machine peers baseDomain)
     <= 1 + List.length peers)%nat.
Proof.
  split; [|split; [|split]].
  - intros name. apply generateUserProfiles_names.
  - apply generateUserProfiles_NoDup.
  - apply generateUserProfiles_names. exists (types.Machine.User machine).
    split; [left | reflexivity].
  - rewrite generateUserProfiles_map, length_map, length_map_to_list.
    apply user_map_size.
Qed.

(** X6: last write wins.  A profile is emitted for a user exactly when that
    user is the last one of its login name, in the order the node's user
    first and then the peers' users; the profile carries that user's id. *)
Theorem generateUserProfiles_last_wins machine peers (baseDomain : string)
    (p : tailcfg.UserProfile.t) :
  p ∈ generateUserProfiles machine peers baseDomain
  ↔ ∃ u, last_named (types.User.Name u) (users_of machine peers) = Some u
         ∧ p = profile_of baseDomain u.
Proof.
  rewrite elem_of_generateUserProfiles. split.
  - intros (u & Hl & ->). exists u. by rewrite <- user_map_last_named.
  - intros (u & Hl & ->). exists u. by rewrite user_map_last_named.
Qed.

(** X7: every emitted profile describes a user of the node or of a peer:
    its login name is the user's name; its display name is that name when
    the base domain is empty and [name@baseDomain] otherwise; its id is the
    user's id, unchanged when the id is below 2^63. *)
Theorem generateUserProfiles_shape machine peers (baseDomain : string)
    (p : tailcfg.UserProfile.t) :
  p ∈ generateUserProfiles machine peers baseDomain →
  ∃ u, u ∈ users_of machine peers
       ∧ tailcfg.UserProfile.LoginName p = types.User.Name u
       ∧ (baseDomain = ""%string →
          tailcfg.UserProfile.DisplayName p = types.User.Name u)
       ∧ (baseDomain ≠ ""%string →
          tailcfg.UserProfile.DisplayName p
          = (types.User.Name u ++ "@" ++ baseDomain)%string)
       ∧ (0 <= types.User.ID u < 2 ^ 63 →
          tailcfg.UserProfile.ID p = types.User.ID u).
Proof.
  intros Hp. apply elem_of_generateUserProfiles in Hp as (u & Hl & ->).
  exists u. split; [by apply user_map_lookup_Some in Hl as [? _]|].
  split; [reflexivity|]. unfold profile_of. simpl.
  split; [|split].
  - intros ->. reflexivity.
  - intros Hne. destruct (String.eqb_spec baseDomain ""); [contradiction|].
    reflexivity.
  - intros Hid. unfold int64_of_uint.
    rewrite Z.mod_small by lia.
    destruct (Z.ltb_spec (types.User.ID u) (2 ^ 63)); [reflexivity | lia].
Qed.

End ProfilesMore.

Lemma generateUserProfiles_shape_witness :
  ∃ u, u ∈ users_of Demo.laptop [Demo.tablet]
       ∧ "alice"%string = types.User.Name u
       ∧ ("example.com"%string = ""%string → "alice@example.com"%string = types.User.Name u)
       ∧ ("example.com"%string ≠ ""%string →
          "alice@example.com"%string
          = (types.User.Name u ++ "@" ++ "example.com")%string)
       ∧ (0 <= types.User.ID u < 2 ^ 63 → 2 = types.User.ID u).
Proof.
  apply (generateUserProfiles_shape Demo.laptop [Demo.tablet] "example.com"
           {| tailcfg.UserProfile.ID := 2;
              tailcfg.UserProfile.LoginName := "alice";
              tailcfg.UserProfile.DisplayName := "alice@example.com" |}).
  vm_compute. left.
Defined.

(** ** Tagging: what it leaves alone, what it repeats, what it escapes *)

Section TaggingMore.
Context `{Externals}.
Implicit Types (σ : Store) (machine : types.Machine.t).
Implicit Types (resolvers : list (option loc)) (l : loc).

Lemma occurrences_pos l resolvers :
  occurrences l resolvers ≠ 0%nat → Some l ∈ resolvers.
Proof.
  induction resolvers as [|p ps IH]; [done|].
  rewrite occurrences_cons. destruct (decide (p = Some l)) as [->|Hne].
  - intros _. left.
  - intros Hocc. right. auto.
Qed.

Lemma iter_tagged_id machine (r : dnstype.Resolver.t) (n : nat) :
  is_nextdns r = false → Nat.iter n (tagged machine) r = r.
Proof.
  intros Hr. induction n as [|n IH]; [reflexivity|].
  simpl. rewrite IH. unfold tagged. unfold is_nextdns in Hr. by rewrite Hr.
Qed.

Lemma store_eq σ σ' : cfgs σ' = cfgs σ → ress σ' = ress σ → σ' = σ.
Proof. destruct σ, σ'. simpl. by intros -> ->. Qed.

(** X8: a list without NextDNS resolvers is left as it is: the tagging
    returns the store it was given. *)
Theorem addNextDNSMetadata_no_nextdns σ resolvers machine :
  resolvers_valid σ resolvers →
  no_nextdns σ resolvers →
  addNextDNSMetadata resolvers machine σ = Returned tt σ.
Proof.
  intros Hvalid Hno.
  destruct (addNextDNSMetadata_run σ resolvers machine Hvalid)
    as (σ' & Hrun & Hcfgs & Hress).
  rewrite Hrun. f_equal. apply store_eq; [exact Hcfgs|].
  apply map_eq. intros l. rewrite Hress.
  destruct (ress σ !! l) as [r|] eqn:Hr; [|reflexivity]. simpl. f_equal.
  destruct (decide (occurrences l resolvers = 0%nat)) as [E|E].
  - by rewrite E.
  - apply iter_tagged_id. apply (Hno l r); [|exact Hr].
    by apply occurrences_pos.
Qed.

Lemma string_app_assoc (a b c : string) :
  ((a ++ b) ++ c)%string = (a ++ (b ++ c))%string.
Proof.
  induction a as [|x a IH]; [reflexivity|].
  change (String x ((a ++ b) ++ c) = String x (a ++ (b ++ c)))%string.
  by rewrite IH.
Qed.

Lemma prefix_app (a b c : string) :
  String.prefix a b = true → String.prefix a (b ++ c) = true.
Proof.
  revert b. induction a as [|x a IH]; intros b.
  { intros _. by destruct (b ++ c)%string. }
  destruct b as [|y b]; [discriminate|]. simpl.
  destruct (ascii_dec x y); [apply IH | discriminate].
Qed.

Lemma tagged_nextdns machine (r : dnstype.Resolver.t) :
  is_nextdns r = true →
  is_nextdns (tagged machine r) = true
  ∧ dnstype.Resolver.Addr (tagged machine r)
    = (dnstype.Resolver.Addr r ++ "?" ++ nextdns_query machine)%string.
Proof.
  unfold is_nextdns, tagged. intros Hr. rewrite Hr. simpl.
  split; [by apply prefix_app | reflexivity].
Qed.

(** X9: the tagging is not idempotent.  Run twice on the same list (of
    distinct pointers to resolvers), it appends the query twice to every
    NextDNS resolver of the list. *)
Theorem addNextDNSMetadata_twice σ resolvers machine :
  resolvers_valid σ resolvers →
  NoDup resolvers →
  ∃ σ1 σ2,
    addNextDNSMetadata resolvers machine σ = Returned tt σ1
    ∧ addNextDNSMetadata resolvers machine σ1 = Returned tt σ2
    ∧ ∀ l r, Some l ∈ resolvers → ress σ !! l = Some r →
        is_nextdns r = true →
        ∃ r2, ress σ2 !! l = Some r2
              ∧ dnstype.Resolver.Addr r2
                = (dnstype.Resolver.Addr r ++ "?" ++ nextdns_query machine
                   ++ "?" ++ nextdns_query machine)%string.
Proof.
  intros Hvalid Hnodup.
  destruct (addNextDNSMetadata_run σ resolvers machine Hvalid)
    as (σ1 & Hrun1 & Hcfgs1 & Hress1).
  assert (Hvalid1 : resolvers_valid σ1 resolvers).
  { apply (resolvers_valid_ress σ); [|exact Hvalid].
    apply set_eq. intros l. rewrite !elem_of_dom, Hress1.
    by rewrite fmap_is_Some. }
  destruct (addNextDNSMetadata_run σ1 resolvers machine Hvalid1)
    as (σ2 & Hrun2 & Hcfgs2 & Hress2).
  exists σ1, σ2. split; [exact Hrun1|]. split; [exact Hrun2|].
  intros l r Hin Hr Hnext.
  rewrite Hress2, Hress1, Hr, (occurrences_NoDup l resolvers Hnodup Hin).
  simpl. eexists. split; [reflexivity|].
  destruct (tagged_nextdns machine r Hnext) as [Hnext1 Haddr1].
  destruct (tagged_nextdns machine (tagged machine r) Hnext1) as [_ Haddr2].
  rewrite Haddr2, Haddr1. by rewrite !string_app_assoc.
Qed.

Lemma QueryEscape_safe (s : string) :
  all_chars query_safe (url.QueryEscape s) = true.
Proof.
  induction s as [|c s IH]; [reflexivity|].
  simpl. destruct (url.shouldEscape c) eqn:Hesc.
  - destruct (Ascii.eqb c " ").
    + simpl. exact IH.
    + cbn [all_chars]. rewrite IH, andb_true_r.
      assert (Hhex : ∀ n, (n < 16)%N → query_safe (url.upperhex n) = true).
      { intros n Hn.
        assert (Hcases : n ∈ [0;1;2;3;4;5;6;7;8;9;10;11;12;13;14;15]%N).
        { rewrite !elem_of_cons.
          do 16 (destruct (decide (n = 0%N)) as [->|]; [tauto|];
                 try (destruct (decide (n = 1%N)) as [->|]; [tauto|]);
                 idtac).
          repeat match goal with
                 | |- _ => lia
                 end. }
        rewrite !elem_of_cons in Hcases.
        repeat (destruct Hcases as [->|Hcases]; [reflexivity|]).
        by apply elem_of_nil in Hcases. }
      rewrite !Hhex; [reflexivity | |].
      * apply N.mod_lt. discriminate.
      * apply N.Div0.div_lt_upper_bound.
        pose proof (N_ascii_bounded c). lia.
  - cbn [all_chars]. rewrite IH, andb_true_r.
    unfold query_safe. unfold url.shouldEscape in Hesc.
    destruct (url.is_alnum c); [reflexivity|]. simpl.
    destruct c as [[] [] [] [] [] [] [] []]; try discriminate Hesc; reflexivity.
Qed.
End TaggingMore.

Section QueryMore.
Context `{Externals}.
Implicit Types (σ : Store) (machine : types.Machine.t).

Lemma all_chars_app (P : ascii → bool) (a b : string) :
  all_chars P (a ++ b) = all_chars P a && all_chars P b.
Proof.
  induction a as [|x a IH]; [reflexivity|].
  change (P x && all_chars P (a ++ b) = P x && all_chars P a && all_chars P b).
  rewrite IH. by rewrite andb_assoc.
Qed.

Lemma count_char_app (c : ascii) (a b : string) :
  count_char c (a ++ b) = (count_char c a + count_char c b)%nat.
Proof.
  induction a as [|x a IH]; [reflexivity|].
  change (((if Ascii.eqb c x then 1 else 0) + count_char c (a ++ b))%nat
          = ((if Ascii.eqb c x then 1 else 0) + count_char c a
             + count_char c b)%nat).
  rewrite IH. lia.
Qed.

Lemma all_chars_impl (P Q : ascii → bool) (s : string) :
  (∀ c, P c = true → Q c = true) →
  all_chars P s = true → all_chars Q s = true.
Proof.
  intros HPQ. induction s as [|x s IH]; [done|]. simpl.
  intros [Hx Hs]%andb_true_iff. by rewrite (HPQ x Hx), IH.
Qed.

Lemma count_char_0 (P : ascii → bool) (c : ascii) (s : string) :
  P c = false → all_chars P s = true → count_char c s = 0%nat.
Proof.
  intros Hc. induction s as [|x s IH]; [done|]. simpl.
  intros [Hx Hs]%andb_true_iff. rewrite (IH Hs).
  destruct (Ascii.eqb_spec c x) as [->|]; [congruence | reflexivity].
Qed.

Lemma QueryEscape_count (c : ascii) (s : string) :
  query_safe c = false → count_char c (url.QueryEscape s) = 0%nat.
Proof. intros Hc. apply (count_char_0 query_safe); [exact Hc|]. apply QueryEscape_safe. Qed.

Lemma QueryEscape_query_char (s : string) :
  all_chars query_char (url.QueryEscape s) = true.
Proof.
  apply (all_chars_impl query_safe); [|apply QueryEscape_safe].
  intros c Hc. unfold query_char. by rewrite Hc.
Qed.

Lemma Encode_nextdns_attrs machine :
  url.Encode (nextdns_attrs machine) = nextdns_query machine.
Proof. unfold nextdns_attrs. apply Encode_attrs. Qed.

(** X10: a host name, an operating system name or an address cannot add
    parameters to the query.  A NextDNS resolver gets [?] and the encoding of
    the attributes appended; that encoding is made of unreserved characters,
    [%], [+] and the separators [&] and [=] only, and it has one [=] per
    attribute (three with an address, two without) and one [&] between two
    attributes, whatever the strings are. *)
Theorem addNextDNSMetadata_query_shape machine σ (l : loc)
    (r : dnstype.Resolver.t) :
  ress σ !! l = Some r →
  is_nextdns r = true →
  ∃ σ',
    addNextDNSMetadata [Some l] machine σ = Returned tt σ'
    ∧ dnstype.Resolver.Addr <$> ress σ' !! l
      = Some (dnstype.Resolver.Addr r ++ "?"
              ++ url.Encode (nextdns_attrs machine))%string
    ∧ all_chars query_char (url.Encode (nextdns_attrs machine)) = true
    ∧ count_char "=" (url.Encode (nextdns_attrs machine))
      = (match types.Machine.IPAddresses machine with
         | [] => 2 | _ :: _ => 3 end)%nat
    ∧ count_char "&" (url.Encode (nextdns_attrs machine))
      = (match types.Machine.IPAddresses machine with
         | [] => 1 | _ :: _ => 2 end)%nat.
Proof.
  intros Hr Hnext.
  eexists. split; [|split; [|split; [|split]]].
  - unfold addNextDNSMetadata. simpl.
    erewrite bind_Returned by exact (tag_resolver_run machine σ l r Hr).
    reflexivity.
  - simpl. rewrite lookup_insert_eq. simpl.
    destruct (tagged_nextdns machine r Hnext) as [_ ->].
    by rewrite Encode_nextdns_attrs.
  - rewrite Encode_nextdns_attrs. unfold nextdns_query.
    destruct (types.Machine.IPAddresses machine) as [|ip ips];
      rewrite !all_chars_app, !QueryEscape_query_char; reflexivity.
  - rewrite Encode_nextdns_attrs. unfold nextdns_query.
    destruct (types.Machine.IPAddresses machine) as [|ip ips];
      rewrite !count_char_app, !QueryEscape_count by reflexivity; reflexivity.
  - rewrite Encode_nextdns_attrs. unfold nextdns_query.
    destruct (types.Machine.IPAddresses machine) as [|ip ips];
      rewrite !count_char_app, !QueryEscape_count by reflexivity; reflexivity.
Qed.

End QueryMore.

(** ** The synthesiser: the clone, the template, the result *)

Section SynthesiserMore.
Context `{Externals}.
Implicit Types (σ : Store) (machine : types.Machine.t).
Implicit Types (peers : list types.Machine.t) (c : tailcfg.DNSConfig.t).
Implicit Types (ps : list (option loc)) (l b : loc).

Lemma bind_inv {A B : Type} (m : M A) (f : A → M B) σ σ'' (y : B) :
  bind m f σ = Returned y σ'' →
  ∃ a σ', m σ = Returned a σ' ∧ f a σ' = Returned y σ''.
Proof. unfold bind. destruct (m σ) as [a σ'|]; [eauto | discriminate]. Qed.

(** The clones of a list: new cells, all distinct, with the same content. *)
Lemma clone_list_content σ0 σ ps :
  ress σ0 ⊆ ress σ →
  resolvers_valid σ0 ps →
  ∃ ps' σ', for_each Resolver_Clone ps σ = Returned ps' σ'
            ∧ cfgs σ' = cfgs σ
            ∧ ress σ ⊆ ress σ'
            ∧ Forall2 (copied σ0 σ σ') ps ps'
            ∧ NoDup ps'.
Proof.
  revert σ. induction ps as [|p ps IH]; intros σ Hsub0 Hvalid.
  - exists [], σ. split; [reflexivity|]. split; [reflexivity|].
    split; [reflexivity|]. split; constructor.
  - apply Forall_cons in Hvalid as [(l & -> & [r Hr0]) Hvalid].
    assert (Hr : ress σ !! l = Some r) by (eapply lookup_weaken; eauto).
    set (l' := fresh (dom (ress σ))).
    set (σa := {| cfgs := cfgs σ; ress := <[l' := r]> (ress σ) |}).
    assert (Hfresh : l' ∉ dom (ress σ)) by apply is_fresh.
    assert (Hsub : ress σ ⊆ ress σa).
    { simpl. apply insert_subseteq. by apply not_elem_of_dom. }
    destruct (IH σa) as (ps' & σ' & Hrun & Hcfgs & Hsub' & Hrel & Hnodup).
    { by transitivity (ress σ). }
    { exact Hvalid. }
    exists (Some l' :: ps'), σ'. split; [|split; [|split; [|split]]].
    + simpl. rewrite (bind_Returned _ _ _ _ _ (Resolver_Clone_run σ l r Hr)).
      replace {| dnstype.Resolver.Addr := dnstype.Resolver.Addr r;
                 dnstype.Resolver.BootstrapResolution :=
                   dnstype.Resolver.BootstrapResolution r |} with r
        by (by destruct r).
      fold l' σa. rewrite (bind_Returned _ _ _ _ _ Hrun). reflexivity.
    + exact Hcfgs.
    + by transitivity (ress σa).
    + constructor.
      * exists l, l', r. split; [reflexivity|]. split; [reflexivity|].
        split; [exact Hr0|]. split; [exact Hfresh|].
        eapply lookup_weaken; [|exact Hsub']. simpl. apply lookup_insert_eq.
      * eapply Forall2_impl; [exact Hrel|].
        intros q q' (k & k' & rk & -> & -> & Hk0 & Hk' & Hcontent).
        exists k, k', rk. split; [reflexivity|]. split; [reflexivity|].
        split; [exact Hk0|]. split; [|exact Hcontent].
        intros Hin. apply Hk'. simpl. rewrite dom_insert_L.
        apply elem_of_union. by right.
    + constructor; [|exact Hnodup].
      intros Hin. apply list_elem_of_lookup in Hin as [i Hi].
      destruct (Forall2_lookup_r _ _ _ i _ Hrel Hi)
        as (q & _ & (k & k' & rk & _ & E & _ & Hk' & _)).
      inversion E; subst k'. apply Hk'. simpl. rewrite dom_insert_L.
      apply elem_of_union. left. by apply elem_of_singleton.
Qed.

(** The MagicDNS branch, with the resolvers of the result. *)
Lemma generateDNSConfig_enabled_content σ b c
    (routes : gmap string (list (option loc))) (baseDomain : string)
    machine peers :
  cfgs σ !! b = Some c →
  tailcfg.DNSConfig.Proxied c = true →
  tailcfg.DNSConfig.Routes c = Some routes →
  resolvers_valid σ (tailcfg.DNSConfig.Resolvers c) →
  pointers_allocated σ (tailcfg.DNSConfig.FallbackResolvers c) →
  ∃ b' c' σ',
    generateDNSConfig (Some b) baseDomain machine peers σ
    = Returned (Some b') σ'
    ∧ cfgs σ' !! b' = Some c'
    ∧ b' ≠ b
    ∧ Forall2 (tagged_clone machine σ σ')
        (tailcfg.DNSConfig.Resolvers c) (tailcfg.DNSConfig.Resolvers c')
    ∧ NoDup (tailcfg.DNSConfig.Resolvers c')
    ∧ tailcfg.DNSConfig.Proxied c' = true
    ∧ tailcfg.DNSConfig.Nameservers c' = tailcfg.DNSConfig.Nameservers c
    ∧ tailcfg.DNSConfig.CertDomains c' = tailcfg.DNSConfig.CertDomains c.
Proof.
  intros Hc Hproxied Hroutes Hvalid Hfallback.
  destruct (clone_list_content σ σ (tailcfg.DNSConfig.Resolvers c))
    as (rs' & σa & Hrun1 & Hcfgs1 & Hsub1 & Hrel1 & Hnodup1);
    [reflexivity | exact Hvalid |].
  destruct (clone_list_run σa (tailcfg.DNSConfig.FallbackResolvers c))
    as (frs' & σb & Hrun2 & Hcfgs2 & Hsub2 & _).
  { by apply (pointers_allocated_weaken σ). }
  assert (Hcf : cfgs σb = cfgs σ) by congruence.
  set (b' := fresh (dom (cfgs σ))).
  assert (Hb' : b' ∉ dom (cfgs σ)) by apply is_fresh.
  assert (Hne : b' ≠ b).
  { intros E. apply Hb'. rewrite E. apply elem_of_dom. eauto. }
  set (c1 := {| tailcfg.DNSConfig.Resolvers := rs';
                tailcfg.DNSConfig.Routes := tailcfg.DNSConfig.Routes c;
                tailcfg.DNSConfig.FallbackResolvers := frs';
                tailcfg.DNSConfig.Domains := tailcfg.DNSConfig.Domains c;
                tailcfg.DNSConfig.Proxied := tailcfg.DNSConfig.Proxied c;
                tailcfg.DNSConfig.Nameservers := tailcfg.DNSConfig.Nameservers c;
                tailcfg.DNSConfig.CertDomains := tailcfg.DNSConfig.CertDomains c;
                tailcfg.DNSConfig.ExtraRecords := tailcfg.DNSConfig.ExtraRecords c;
                tailcfg.DNSConfig.ExitNodeFilteredSet :=
                  tailcfg.DNSConfig.ExitNodeFilteredSet c |}).
  set (σ1 := {| cfgs := <[b' := c1]> (cfgs σ); ress := ress σb |}).
  assert (Hclone : DNSConfig_Clone (Some b) σ = Returned (Some b') σ1).
  { unfold DNSConfig_Clone. unfold bind at 1, load_cfg. rewrite Hc.
    rewrite (bind_Returned _ _ _ _ _ Hrun1).
    rewrite (bind_Returned _ _ _ _ _ Hrun2).
    unfold new_cfg. cbv zeta. rewrite Hcf. reflexivity. }
  assert (Hc1 : cfgs σ1 !! b' = Some c1) by apply lookup_insert_eq.
  assert (Hcb : cfgs σ1 !! b = Some c).
  { simpl. rewrite lookup_insert_ne by exact Hne. exact Hc. }
  set (names := List.map (magic_name baseDomain)
                  (elements (user_set machine peers))).
  set (c2 := with_Domains c1
               (tailcfg.DNSConfig.Domains c1
                ++ [magic_name baseDomain (types.Machine.User machine)])).
  set (σ2 := {| cfgs := <[b' := c2]> (cfgs σ1); ress := ress σ1 |}).
  set (routes' := foldl (fun routes name => <[name := []]> routes) routes names).
  set (c3 := with_Routes c2 (Some routes')).
  set (σ3 := {| cfgs := <[b' := c3]> (cfgs σ2); ress := ress σ2 |}).
  assert (Hloop : for_range (set_route_nil (Some b')) names σ2 = Returned tt σ3).
  { apply set_routes_run; [apply lookup_insert_eq | exact Hroutes]. }
  assert (Hcopy : ∀ i p p', tailcfg.DNSConfig.Resolvers c !! i = Some p →
            rs' !! i = Some p' →
            ∃ l l' r, p = Some l ∧ p' = Some l' ∧ ress σ !! l = Some r
                      ∧ (l' ∉ dom (ress σ)) ∧ ress σb !! l' = Some r).
  { intros i p p' Hp Hp'.
    destruct (Forall2_lookup_lr _ _ _ _ _ _ Hrel1 Hp Hp')
      as (l & l' & r & -> & -> & Hr & Hfresh & Hcontent).
    exists l, l', r. split; [reflexivity|]. split; [reflexivity|].
    split; [exact Hr|]. split; [exact Hfresh|].
    eapply lookup_weaken; eauto. }
  assert (Hvalid3 : resolvers_valid σ3 rs').
  { apply Forall_lookup. intros i p' Hp'.
    destruct (Forall2_lookup_r _ _ _ _ _ Hrel1 Hp') as (p & Hp & _).
    destruct (Hcopy i p p' Hp Hp') as (l & l' & r & _ & -> & _ & _ & Hcontent).
    exists l'. split; [reflexivity|]. simpl. eauto. }
  destruct (addNextDNSMetadata_run σ3 rs' machine Hvalid3)
    as (σ' & Htag & Hcfgs' & Hress').
  exists b', c3, σ'.
  split; [|split; [|split; [exact Hne|split; [|split; [exact Hnodup1|]]]]].
  - unfold generateDNSConfig.
    erewrite bind_Returned by exact Hclone.
    erewrite bind_Returned by exact (magic_dns_run _ _ _ Hcb).
    rewrite Hproxied.
    erewrite bind_Returned; cycle 1.
    { erewrite bind_Returned by exact (append_domain_run _ _ _ _ Hc1).
      rewrite (for_range_map (magic_name baseDomain) (set_route_nil (Some b'))).
      erewrite bind_Returned by exact Hloop. reflexivity. }
    erewrite bind_Returned; cycle 1.
    { apply load_cfg_run. simpl. apply lookup_insert_eq. }
    erewrite bind_Returned by exact Htag. reflexivity.
  - rewrite Hcfgs'. simpl. apply lookup_insert_eq.
  - apply Forall2_same_length_lookup. split.
    + simpl. by apply Forall2_length in Hrel1.
    + intros i p p' Hp Hp'. simpl in Hp'.
      destruct (Hcopy i p p' Hp Hp') as (l & l' & r & -> & -> & Hr & Hfresh & Hcontent).
      exists l, l', r. split; [reflexivity|]. split; [reflexivity|].
      split; [exact Hr|]. split; [exact Hfresh|].
      rewrite Hress'.
      rewrite (occurrences_NoDup l' rs' Hnodup1)
        by (eapply list_elem_of_lookup_2; exact Hp').
      simpl. rewrite Hcontent. reflexivity.
  - repeat split; assumption || reflexivity.
Qed.

(** X11: with MagicDNS enabled, every resolver of the result is a copy of
    the template's resolver at the same position, in a cell that did not
    exist before the call, tagged exactly once; the copies are distinct
    cells even when the template lists one resolver twice.  The result is
    not the template, and keeps its [Proxied] flag, name servers and
    certificate domains. *)
Theorem generateDNSConfig_clone_resolvers σ b c
    (routes : gmap string (list (option loc))) (baseDomain : string)
    machine peers :
  cfgs σ !! b = Some c →
  tailcfg.DNSConfig.Proxied c = true →
  tailcfg.DNSConfig.Routes c = Some routes →
  resolvers_valid σ (tailcfg.DNSConfig.Resolvers c) →
  pointers_allocated σ (tailcfg.DNSConfig.FallbackResolvers c) →
  ∃ b' c' σ',
    generateDNSConfig (Some b) baseDomain machine peers σ
    = Returned (Some b') σ'
    ∧ cfgs σ' !! b' = Some c'
    ∧ b' ≠ b
    ∧ Forall2
        (fun p p' =>
           ∃ l l' r, p = Some l ∧ p' = Some l'
                     ∧ ress σ !! l = Some r
                     ∧ (l' ∉ dom (ress σ))
                     ∧ ress σ' !! l' = Some (tagged machine r))
        (tailcfg.DNSConfig.Resolvers c) (tailcfg.DNSConfig.Resolvers c')
    ∧ NoDup (tailcfg.DNSConfig.Resolvers c')
    ∧ tailcfg.DNSConfig.Proxied c' = true
    ∧ tailcfg.DNSConfig.Nameservers c' = tailcfg.DNSConfig.Nameservers c
    ∧ tailcfg.DNSConfig.CertDomains c' = tailcfg.DNSConfig.CertDomains c.
Proof. apply generateDNSConfig_enabled_content. Qed.

(** X12: with MagicDNS disabled and no NextDNS resolver in the template,
    the result is the template itself and nothing that existed before the
    call has changed: not the template, not a resolver. *)
Theorem generateDNSConfig_disabled_plain σ b c (baseDomain : string)
    machine peers :
  cfgs σ !! b = Some c →
  tailcfg.DNSConfig.Proxied c = false →
  resolvers_valid σ (tailcfg.DNSConfig.Resolvers c) →
  pointers_allocated σ (tailcfg.DNSConfig.FallbackResolvers c) →
  no_nextdns σ (tailcfg.DNSConfig.Resolvers c) →
  ∃ σ',
    generateDNSConfig (Some b) baseDomain machine peers σ = Returned (Some b) σ'
    ∧ cfgs σ' !! b = Some c
    ∧ ∀ l r, ress σ !! l = Some r → ress σ' !! l = Some r.
Proof.
  intros Hc Hproxied Hvalid Hfallback Hno.
  destruct (generateDNSConfig_disabled_run σ b c baseDomain machine peers
              Hc Hproxied Hvalid Hfallback) as (σ' & Hrun & Hcb & Hress).
  exists σ'. split; [exact Hrun|]. split; [exact Hcb|].
  intros l r Hr. rewrite (Hress l r Hr). f_equal.
  destruct (decide (occurrences l (tailcfg.DNSConfig.Resolvers c) = 0%nat))
    as [E|E].
  - by rewrite E.
  - apply iter_tagged_id. apply (Hno l r); [|exact Hr].
    by apply occurrences_pos.
Qed.

Lemma tag_resolver_cfgs machine (p : option loc) σ σ' :
  tag_resolver machine p σ = Returned tt σ' → cfgs σ' = cfgs σ.
Proof.
  unfold tag_resolver. intros Hrun.
  apply bind_inv in Hrun as (r & σ1 & Hload & Hrest).
  unfold load_resolver in Hload. destruct p as [l|]; [|discriminate].
  destruct (ress σ !! l) eqn:Hl; [|discriminate]. inversion Hload; subst.
  destruct (String.prefix nextDNSDoHPrefix (dnstype.Resolver.Addr r)).
  - unfold store_resolver in Hrest. rewrite Hl in Hrest. by inversion Hrest.
  - by inversion Hrest.
Qed.

Lemma addNextDNSMetadata_cfgs machine ps σ σ' :
  addNextDNSMetadata ps machine σ = Returned tt σ' → cfgs σ' = cfgs σ.
Proof.
  unfold addNextDNSMetadata. revert σ.
  induction ps as [|p ps IH]; intros σ Hrun.
  - by inversion Hrun.
  - simpl in Hrun. apply bind_inv in Hrun as ([] & σ1 & Hhead & Htail).
    rewrite (IH _ Htail). by apply tag_resolver_cfgs in Hhead.
Qed.

Lemma generateDNSConfig_returns_Some (base : option loc)
    (baseDomain : string) machine peers σ σ' (result : option loc) :
  generateDNSConfig base baseDomain machine peers σ = Returned result σ' →
  ∃ b c, result = Some b ∧ cfgs σ' !! b = Some c ∧ base ≠ None.
Proof.
  unfold generateDNSConfig. intros Hrun.
  apply bind_inv in Hrun as (d0 & σ1 & _ & Hrun).
  apply bind_inv in Hrun as (enabled & σ2 & Hmagic & Hrun).
  apply bind_inv in Hrun as (d & σ3 & Hbranch & Hrun).
  apply bind_inv in Hrun as (c & σ4 & Hload & Hrun).
  apply bind_inv in Hrun as ([] & σ5 & Htag & Hret).
  inversion Hret; subst result σ5. clear Hret.
  unfold load_cfg in Hload. destruct d as [b|]; [|discriminate].
  destruct (cfgs σ3 !! b) as [c'|] eqn:Hb; [|discriminate].
  inversion Hload; subst c' σ4. clear Hload.
  exists b, c. split; [reflexivity|]. split.
  - rewrite (addNextDNSMetadata_cfgs _ _ _ _ Htag). exact Hb.
  - intros ->. simpl in Hmagic. inversion Hmagic; subst enabled σ2.
    simpl in Hbranch. inversion Hbranch.
Qed.

(** X13: the synthesiser never returns nil.  Whenever it returns, the
    pointer is not nil and points to a configuration of the resulting
    store; a nil template makes it panic, not return. *)
Theorem generateDNSConfig_result_not_nil (base : option loc)
    (baseDomain : string) machine peers σ σ' (result : option loc) :
  generateDNSConfig base baseDomain machine peers σ = Returned result σ' →
  ∃ b c, result = Some b ∧ cfgs σ' !! b = Some c ∧ base ≠ None.
Proof. apply generateDNSConfig_returns_Some. Qed.

End SynthesiserMore.

(** ** The operations: errors, panics, composition *)

Section OperationsMore.
Context `{Collaborators}.
Implicit Types (m : Mapper) (σ : Store) (machine : types.Machine.t).
Implicit Types (mapRequest : tailcfg.MapRequest.t).
Implicit Types (pol : option policy_ACLPolicy).

Lemma visible_peers_filter machine (candidates : list types.Machine.t)
    (rules : list tailcfg_FilterRule) :
  (if 0 <? len rules
   then policy_FilterMachinesByACL machine candidates rules
   else candidates) = visible_peers machine candidates rules.
Proof.
  destruct rules; [reflexivity|]. unfold len. simpl length.
  by rewrite (proj2 (Z.ltb_lt _ _)) by lia.
Qed.

(** What a returned response was built from. *)
Lemma fullMapResponse_inv m mapRequest machine pol σ σ'
    (resp : tailcfg.MapResponse.t) :
  fullMapResponse m mapRequest machine pol σ = Returned (Ok resp) σ' →
  ∃ node candidates rules sshPolicy nodePeers dnsConfig,
    db.TailNode (db m) σ machine pol (dnsCfg m) = Ok node
    ∧ db.ListPeers (db m) σ machine = Ok candidates
    ∧ policy_GenerateFilterRules pol candidates (stripEmailDomain m)
      = Ok (rules, sshPolicy)
    ∧ db.TailNodes (db m) σ (visible_peers machine candidates rules) pol
        (dnsCfg m) = Ok nodePeers
    ∧ generateDNSConfig (dnsCfg m) (baseDomain m) machine
        (visible_peers machine candidates rules) σ
      = Returned dnsConfig σ'
    ∧ resp = {|
        tailcfg.MapResponse.KeepAlive := false;
        tailcfg.MapResponse.Node := Some node;
        tailcfg.MapResponse.DERPMap := derpMap m;
        tailcfg.MapResponse.Peers := nodePeers;
        tailcfg.MapResponse.DNSConfig := dnsConfig;
        tailcfg.MapResponse.Domain := baseDomain m;
        tailcfg.MapResponse.CollectServices := "false";
        tailcfg.MapResponse.PacketFilter := rules;
        tailcfg.MapResponse.UserProfiles :=
          generateUserProfiles machine
            (visible_peers machine candidates rules) (baseDomain m);
        tailcfg.MapResponse.SSHPolicy := sshPolicy;
        tailcfg.MapResponse.ControlTime := Some time_Now;
        tailcfg.MapResponse.Debug :=
          Some {| tailcfg.Debug.DisableLogTail := negb (logtail m);
                  tailcfg.Debug.RandomizeClientPort := randomClientPort m |};
      |}.
Proof.
  unfold fullMapResponse. intros Hrun.
  apply bind_inv in Hrun as (hostname & σa & Htrace & Hrun).
  unfold trace_hostname in Htrace.
  destruct (tailcfg.MapRequest.Hostinfo mapRequest) as [hostinfo|] eqn:Hh;
    [|discriminate].
  assert (σa = σ) by (by inversion Htrace). subst σa. clear Htrace.
  apply bind_inv in Hrun as (σ0 & σb & Hget & Hrun).
  assert (σ0 = σ ∧ σb = σ) as [-> ->] by (by inversion Hget). clear Hget.
  destruct (db.TailNode (db m) σ machine pol (dnsCfg m)) as [node|] eqn:Hnode;
    [|discriminate].
  destruct (db.ListPeers (db m) σ machine) as [candidates|] eqn:Hpeers;
    [|discriminate].
  destruct (policy_GenerateFilterRules pol candidates (stripEmailDomain m))
    as [[rules sshPolicy]|] eqn:Hrules; [|discriminate].
  cbv zeta in Hrun. rewrite visible_peers_filter in Hrun.
  destruct (db.TailNodes (db m) σ (visible_peers machine candidates rules)
              pol (dnsCfg m)) as [nodePeers|] eqn:Hnodes; [|discriminate].
  apply bind_inv in Hrun as (dnsConfig & σc & Hdns & Hrun).
  apply bind_inv in Hrun as (hostname' & σd & Htrace & Hret).
  unfold trace_hostname in Htrace. rewrite Hh in Htrace.
  assert (σd = σc) by (by inversion Htrace). subst σd. clear Htrace.
  unfold ret in Hret. injection Hret as Hresp Hstore. subst σc.
  exists node, candidates, rules, sshPolicy, nodePeers, dnsConfig.
  rewrite <- Hresp. repeat split; assumption || reflexivity.
Qed.

(** X14: what a full response is made of.  Whenever [fullMapResponse]
    returns a response, its packet filter is the rule set generated from the
    candidates of [ListPeers], its peers are the conversion of the visible
    candidates (all of them under an empty rule set, those that
    [FilterMachinesByACL] keeps otherwise), its profiles name exactly the
    users of the node and of the visible candidates, so no candidate that
    the filter drops gets a profile of its own, its DNS configuration is
    not nil, and it is not a keepalive. *)
Theorem fullMapResponse_content m mapRequest machine pol σ σ'
    (resp : tailcfg.MapResponse.t) :
  fullMapResponse m mapRequest machine pol σ = Returned (Ok resp) σ' →
  ∃ candidates sshPolicy,
    db.ListPeers (db m) σ machine = Ok candidates
    ∧ policy_GenerateFilterRules pol candidates (stripEmailDomain m)
      = Ok (tailcfg.MapResponse.PacketFilter resp, sshPolicy)
    ∧ db.TailNodes (db m) σ
        (visible_peers machine candidates (tailcfg.MapResponse.PacketFilter resp))
        pol (dnsCfg m)
      = Ok (tailcfg.MapResponse.Peers resp)
    ∧ (∀ name : string,
         (∃ p, p ∈ tailcfg.MapResponse.UserProfiles resp
               ∧ tailcfg.UserProfile.LoginName p = name)
         ↔ (∃ u, u ∈ users_of machine
                       (visible_peers machine candidates
                          (tailcfg.MapResponse.PacketFilter resp))
                 ∧ types.User.Name u = name))
    ∧ (∃ b c, tailcfg.MapResponse.DNSConfig resp = Some b
              ∧ cfgs σ' !! b = Some c)
    ∧ tailcfg.MapResponse.KeepAlive resp = false
    ∧ tailcfg.MapResponse.Domain resp = baseDomain m.
Proof.
  intros Hrun.
  apply fullMapResponse_inv in Hrun
    as (node & candidates & rules & sshPolicy & nodePeers & dnsConfig
        & Hnode & Hpeers & Hrules & Hnodes & Hdns & ->).
  exists candidates, sshPolicy. simpl.
  split; [exact Hpeers|]. split; [exact Hrules|]. split; [exact Hnodes|].
  split; [intros name; apply generateUserProfiles_names|].
  split; [|split; reflexivity].
  apply generateDNSConfig_returns_Some in Hdns as (b & c & -> & Hc & _).
  eauto.
Qed.

(** X15: a mapper without a DNS template cannot build a full response:
    whatever the request, [CreateMapResponse] returns no bytes; it returns
    an error of a collaborator or panics. *)
Theorem CreateMapResponse_nil_template m mapRequest machine pol σ σ'
    (data : list byte) :
  dnsCfg m = None →
  CreateMapResponse m mapRequest machine pol σ ≠ Returned (Ok data) σ'.
Proof.
  intros Hnil Hrun. unfold CreateMapResponse in Hrun.
  apply bind_inv in Hrun as (r & σ1 & Hfull & Hrest).
  destruct r as [resp|err]; [|discriminate].
  apply fullMapResponse_inv in Hfull
    as (_ & candidates & rules & _ & _ & dnsConfig & _ & _ & _ & _ & Hdns & _).
  apply generateDNSConfig_returns_Some in Hdns as (_ & _ & _ & _ & Hbase).
  contradiction.
Qed.

(** X16: the error of a failing step of the builder is what
    [CreateMapResponse] returns, with no bytes, and the store is as it was:
    the node conversion, the fetch of the peers, the generation of the
    rules, the conversion of the visible peers. *)
Theorem CreateMapResponse_builder_error m mapRequest machine pol σ
    (hostinfo : tailcfg.Hostinfo.t) (err : error) :
  tailcfg.MapRequest.Hostinfo mapRequest = Some hostinfo →
  (db.TailNode (db m) σ machine pol (dnsCfg m) = Err err
   ∨ (∃ node,
        db.TailNode (db m) σ machine pol (dnsCfg m) = Ok node
        ∧ (db.ListPeers (db m) σ machine = Err err
           ∨ ∃ candidates,
               db.ListPeers (db m) σ machine = Ok candidates
               ∧ (policy_GenerateFilterRules pol candidates
                    (stripEmailDomain m) = Err err
                  ∨ ∃ rules sshPolicy,
                      policy_GenerateFilterRules pol candidates
                        (stripEmailDomain m) = Ok (rules, sshPolicy)
                      ∧ db.TailNodes (db m) σ
                          (visible_peers machine candidates rules) pol
                          (dnsCfg m) = Err err)))) →
  CreateMapResponse m mapRequest machine pol σ = Returned (Err err) σ.
Proof.
  intros Hh Hfail. apply CreateMapResponse_returns_builder_error.
  unfold fullMapResponse.
  erewrite bind_Returned by exact (trace_hostname_run _ _ _ Hh).
  erewrite bind_Returned by reflexivity.
  destruct Hfail as [-> | (node & -> & Hfail)]; [reflexivity|].
  destruct Hfail as [-> | (candidates & -> & Hfail)]; [reflexivity|].
  destruct Hfail as [-> | (rules & sshPolicy & -> & Hnodes)]; [reflexivity|].
  cbv zeta. rewrite visible_peers_filter, Hnodes. reflexivity.
Qed.

(** X17: the bytes of a full response.  When the builder returns a
    response, [CreateMapResponse] emits the frame of its serialisation, read
    in the store that the DNS synthesis left, compressed on request; in
    legacy mode the machine key is parsed after the build, and the bytes are
    sealed to it. *)
Theorem CreateMapResponse_bytes m mapRequest machine pol σ σ'
    (resp : tailcfg.MapResponse.t) (machineKey : key_MachinePublic)
    (k : key_MachinePrivate) :
  fullMapResponse m mapRequest machine pol σ = Returned (Ok resp) σ' →
  (isNoise m = false →
   parse_machine_key machine = Ok machineKey ∧ privateKey2019 m = Some k) →
  CreateMapResponse m mapRequest machine pol σ
  = Returned
      (Ok (frame
             (if isNoise m
              then compressed (tailcfg.MapRequest.Compress mapRequest)
                     (serialized σ' resp)
              else key_SealTo k machineKey
                     (compressed (tailcfg.MapRequest.Compress mapRequest)
                        (serialized σ' resp)))))
      σ'.
Proof.
  intros Hfull Hlegacy. unfold CreateMapResponse.
  erewrite bind_Returned by exact Hfull.
  destruct (isNoise m) eqn:En.
  - rewrite marshalMapResponse_run. cbv zeta. by rewrite En.
  - destruct (Hlegacy eq_refl) as [-> Hk].
    rewrite marshalMapResponse_run. cbv zeta. by rewrite En, Hk.
Qed.

(** X18: a machine key that does not parse, in legacy mode.  The keepalive
    path returns the error at once: nothing is serialised and the store is
    untouched, even when the mapper has no private key.  The full path
    returns it after the build, with the store that the build left. *)
Theorem legacy_key_error m mapRequest machine pol σ (err : error) :
  isNoise m = false →
  parse_machine_key machine = Err err →
  CreateKeepAliveResponse m mapRequest machine σ = Returned (Err err) σ
  ∧ ∀ resp σ',
      fullMapResponse m mapRequest machine pol σ = Returned (Ok resp) σ' →
      CreateMapResponse m mapRequest machine pol σ = Returned (Err err) σ'.
Proof.
  intros Hnoise Hparse. split.
  - unfold CreateKeepAliveResponse. by rewrite Hnoise, Hparse.
  - intros resp σ' Hfull.
    by apply (CreateMapResponse_returns_key_error _ _ _ _ _ _ resp).
Qed.

(** X19: a request without host information.  The full path reads the host
    name of the request for its trace before anything else, so it panics on
    a request whose [Hostinfo] is nil; the keepalive path does not read it
    and answers the same with or without it. *)
Theorem nil_Hostinfo m (compress : string) machine pol σ
    (hostinfo : option tailcfg.Hostinfo.t) :
  CreateMapResponse m
    {| tailcfg.MapRequest.Compress := compress;
       tailcfg.MapRequest.Hostinfo := None |} machine pol σ
  = Panicked
  ∧ CreateKeepAliveResponse m
      {| tailcfg.MapRequest.Compress := compress;
         tailcfg.MapRequest.Hostinfo := hostinfo |} machine σ
    = CreateKeepAliveResponse m
        {| tailcfg.MapRequest.Compress := compress;
           tailcfg.MapRequest.Hostinfo := None |} machine σ.
Proof. split; reflexivity. Qed.

End OperationsMore.

(** ** The web handlers *)

Section WebMore.

Lemma substring_prefix (s t : string) :
  substring 0 (String.length s) (s ++ t) = s.
Proof.
  induction s as [|x s IH]; [by destruct t|].
  change (String x (substring 0 (String.length s) (s ++ t)) = String x s).
  by rewrite IH.
Qed.

Lemma substring_all (t : string) : substring 0 (String.length t) t = t.
Proof.
  induction t as [|x t IH]; [reflexivity|].
  change (String x (substring 0 (String.length t) t) = String x t).
  by rewrite IH.
Qed.

Lemma substring_suffix (s t : string) :
  substring (String.length s) (String.length t) (s ++ t) = t.
Proof.
  induction s as [|x s IH]; [apply substring_all|].
  change (substring (String.length s) (String.length t) (s ++ t) = t).
  exact IH.
Qed.

Lemma string_length_app (s t : string) :
  String.length (s ++ t) = (String.length s + String.length t)%nat.
Proof.
  induction s as [|x s IH]; [reflexivity|].
  change (S (String.length (s ++ t)) = S (String.length s + String.length t)).
  by rewrite IH.
Qed.

(** [TrimSuffix] undoes the appending of the suffix. *)
Lemma TrimSuffix_app (s suffix : string) :
  strings.TrimSuffix (s ++ suffix) suffix = s.
Proof.
  unfold strings.TrimSuffix, strings.HasSuffix.
  rewrite string_length_app.
  replace (String.length s + String.length suffix - String.length suffix)%nat
    with (String.length s) by lia.
  rewrite substring_suffix, substring_prefix, String.eqb_refl.
  replace (String.length suffix <=? String.length s + String.length suffix)%nat
    with true by (symmetry; apply Nat.leb_le; lia).
  reflexivity.
Qed.

Lemma TrimSuffix_none (s suffix : string) :
  strings.HasSuffix s suffix = false → strings.TrimSuffix s suffix = s.
Proof. unfold strings.TrimSuffix. by intros ->. Qed.

(** X20: [AdminHandler] redirects to the admin page of the target.  On a
    writer that has sent nothing, for a target URL [t] that does not end with
    a slash, it sends the status 302 with the one [Location] [t/admin/], the
    other headers as they were; the target URL written with a trailing slash
    gives the same response; the request is not read. *)
Theorem AdminHandler_redirect (t : string) (writer : http.ResponseWriter)
    (req req' : http.Request) :
  http.Written writer = None →
  strings.HasSuffix t "/" = false →
  http.Written
    (AdminHandler {| cfg := {| TargetURL := t |} |} writer req)
  = Some (302, <["Location"%string := [(t ++ "/admin/")%string]]>
                 (http.Header writer))
  ∧ AdminHandler {| cfg := {| TargetURL := (t ++ "/")%string |} |} writer req'
    = AdminHandler {| cfg := {| TargetURL := t |} |} writer req.
Proof.
  intros Hw Ht. unfold AdminHandler. simpl.
  rewrite TrimSuffix_app, (TrimSuffix_none t "/" Ht).
  split; [|reflexivity].
  unfold http.WriteHeader, http.Header_Set. simpl. rewrite Hw. reflexivity.
Qed.

Context `{WebCollaborators}.

(** X22: a registration id that parses is redirected.  On a writer that has
    sent nothing, the handler sends the status 302 with the one [Location]
    made of the target URL without a trailing slash, [/register/] and the
    text of the parsed id; an id that does not parse, or a missing route
    variable that reads as the empty string and does not parse, sets no
    header: the writer goes to [httpError] as it came. *)
Theorem WebRegisterHandler_redirect (a : AuthProviderWeb)
    (writer : http.ResponseWriter) (req : http.Request)
    (parsed : result web_error types_RegistrationID) :
  http.Written writer = None →
  types_RegistrationIDFromString
    (default ""%string (http.Vars req !! "registration_id"%string))
  = parsed →
  match parsed with
  | Ok id =>
      http.Written (WebRegisterHandler a writer req)
      = Some (302,
              <["Location"%string :=
                  [(strings.TrimSuffix (targetURL a) "/" ++ "/register/"
                    ++ types_RegistrationID_String id)%string]]>
                (http.Header writer))
  | Err err =>
      WebRegisterHandler a writer req
      = httpError writer (NewHTTPError 400 "invalid registration id" err)
  end.
Proof.
  intros Hw <-. unfold WebRegisterHandler. cbv zeta.
  destruct (types_RegistrationIDFromString _) as [id|err]; [|reflexivity].
  unfold http.WriteHeader, http.Header_Set. simpl. rewrite Hw. reflexivity.
Qed.

End WebMore.

(** ** The further properties in the example world *)

Lemma AdminHandler_redirect_witness :
  http.Written
    (AdminHandler {| cfg := {| TargetURL := "https://hs.example.com" |} |}
       Cases.fresh_writer (Cases.request_of "x"))
  = Some (302, {[ "Location"%string := ["https://hs.example.com/admin/"%string] ]})
  ∧ AdminHandler {| cfg := {| TargetURL := "https://hs.example.com/" |} |}
      Cases.fresh_writer (Cases.request_of "y")
    = AdminHandler {| cfg := {| TargetURL := "https://hs.example.com" |} |}
        Cases.fresh_writer (Cases.request_of "x").
Proof.
  apply (AdminHandler_redirect "https://hs.example.com" Cases.fresh_writer
           (Cases.request_of "x") (Cases.request_of "y")); reflexivity.
Defined.

Lemma WebRegisterHandler_redirect_witness :
  http.Written
    (@WebRegisterHandler Cases.web {| targetURL := "https://hs.example.com/" |}
       Cases.fresh_writer (Cases.request_of "abcdefghijklmnopqrstuvwx"))
  = Some (302,
          {[ "Location"%string :=
               ["https://hs.example.com/register/abcdefghijklmnopqrstuvwx"%string] ]}).
Proof.
  apply (@WebRegisterHandler_redirect Cases.web
           {| targetURL := "https://hs.example.com/" |} Cases.fresh_writer
           (Cases.request_of "abcdefghijklmnopqrstuvwx")
           (Ok "abcdefghijklmnopqrstuvwx"%string)); reflexivity.
Defined.

#[local] Existing Instance Demo.externals.

Lemma plain_resolvers_valid :
  resolvers_valid Cases.plain_store [Some 1%positive; Some 2%positive].
Proof.
  repeat constructor; eexists; (split; [reflexivity|]); vm_compute; eauto.
Qed.

Lemma plain_no_nextdns :
  no_nextdns Cases.plain_store [Some 1%positive; Some 2%positive].
Proof.
  intros l r Hin. rewrite !elem_of_cons in Hin.
  destruct Hin as [Hl | [Hl | Hl]].
  - injection Hl as ->. intros Hr. vm_compute in Hr. injection Hr as <-.
    reflexivity.
  - injection Hl as ->. intros Hr. vm_compute in Hr. injection Hr as <-.
    reflexivity.
  - by apply elem_of_nil in Hl.
Qed.

Lemma example_NoDup : NoDup [Some 1%positive; Some 2%positive].
Proof.
  apply NoDup_cons. split; [|apply NoDup_singleton].
  rewrite list_elem_of_singleton. discriminate.
Qed.

Lemma addNextDNSMetadata_no_nextdns_witness :
  addNextDNSMetadata [Some 1%positive; Some 2%positive] Demo.laptop
    Cases.plain_store
  = Returned tt Cases.plain_store.
Proof.
  apply (addNextDNSMetadata_no_nextdns Cases.plain_store
           [Some 1%positive; Some 2%positive] Demo.laptop).
  - apply plain_resolvers_valid.
  - apply plain_no_nextdns.
Defined.

Lemma addNextDNSMetadata_twice_witness :
  ∃ σ1 σ2,
    addNextDNSMetadata [Some 1%positive; Some 2%positive] Demo.laptop
      Demo.store_disabled
    = Returned tt σ1
    ∧ addNextDNSMetadata [Some 1%positive; Some 2%positive] Demo.laptop σ1
      = Returned tt σ2
    ∧ ∀ l r, Some l ∈ [Some 1%positive; Some 2%positive] →
        ress Demo.store_disabled !! l = Some r →
        is_nextdns r = true →
        ∃ r2, ress σ2 !! l = Some r2
              ∧ dnstype.Resolver.Addr r2
                = (dnstype.Resolver.Addr r ++ "?" ++ nextdns_query Demo.laptop
                   ++ "?" ++ nextdns_query Demo.laptop)%string.
Proof.
  apply (addNextDNSMetadata_twice Demo.store_disabled
           [Some 1%positive; Some 2%positive] Demo.laptop).
  - apply example_resolvers_valid.
  - apply example_NoDup.
Defined.

Lemma addNextDNSMetadata_query_shape_witness :
  ∃ σ',
    addNextDNSMetadata [Some 1%positive] Demo.laptop Demo.store_disabled
    = Returned tt σ'
    ∧ dnstype.Resolver.Addr <$> ress σ' !! 1%positive
      = Some ("https://dns.nextdns.io/abc123" ++ "?"
              ++ url.Encode (nextdns_attrs Demo.laptop))%string
    ∧ all_chars query_char (url.Encode (nextdns_attrs Demo.laptop)) = true
    ∧ count_char "=" (url.Encode (nextdns_attrs Demo.laptop)) = 3%nat
    ∧ count_char "&" (url.Encode (nextdns_attrs Demo.laptop)) = 2%nat.
Proof.
  apply (addNextDNSMetadata_query_shape Demo.laptop Demo.store_disabled
           1%positive (Demo.resolver "https://dns.nextdns.io/abc123"));
    reflexivity.
Defined.

Lemma generateDNSConfig_clone_resolvers_witness :
  ∃ b' c' σ',
    generateDNSConfig (Some 1%positive) "example.com" Demo.laptop
      [Demo.phone] Demo.store_enabled
    = Returned (Some b') σ'
    ∧ cfgs σ' !! b' = Some c'
    ∧ b' ≠ 1%positive
    ∧ Forall2
        (fun p p' =>
           ∃ l l' r, p = Some l ∧ p' = Some l'
                     ∧ ress Demo.store_enabled !! l = Some r
                     ∧ (l' ∉ dom (ress Demo.store_enabled))
                     ∧ ress σ' !! l' = Some (tagged Demo.laptop r))
        [Some 1%positive; Some 2%positive] (tailcfg.DNSConfig.Resolvers c')
    ∧ NoDup (tailcfg.DNSConfig.Resolvers c')
    ∧ tailcfg.DNSConfig.Proxied c' = true
    ∧ tailcfg.DNSConfig.Nameservers c' = []
    ∧ tailcfg.DNSConfig.CertDomains c' = [].
Proof.
  apply (generateDNSConfig_clone_resolvers Demo.store_enabled 1%positive
           (Demo.template true (Some ∅)) ∅ "example.com" Demo.laptop
           [Demo.phone]).
  - reflexivity.
  - reflexivity.
  - reflexivity.
  - apply example_resolvers_valid.
  - constructor.
Defined.

Lemma generateDNSConfig_disabled_plain_witness :
  ∃ σ',
    generateDNSConfig (Some 1%positive) "example.com" Demo.laptop
      [Demo.phone] Cases.plain_store
    = Returned (Some 1%positive) σ'
    ∧ cfgs σ' !! 1%positive
      = Some (Demo.config false None [Some 1%positive; Some 2%positive])
    ∧ ∀ l r, ress Cases.plain_store !! l = Some r → ress σ' !! l = Some r.
Proof.
  apply (generateDNSConfig_disabled_plain Cases.plain_store 1%positive
           (Demo.config false None [Some 1%positive; Some 2%positive])
           "example.com" Demo.laptop [Demo.phone]).
  - reflexivity.
  - reflexivity.
  - apply plain_resolvers_valid.
  - constructor.
  - apply plain_no_nextdns.
Defined.

Lemma generateDNSConfig_result_not_nil_witness :
  ∃ σ' (result : option loc) b c,
    result = Some b ∧ cfgs σ' !! b = Some c ∧ Some 1%positive ≠ None.
Proof.
  eexists _, _.
  eapply (generateDNSConfig_result_not_nil (Some 1%positive) "example.com"
            Demo.laptop [Demo.phone] Demo.store_enabled).
  vm_compute. reflexivity.
Defined.

Lemma fullMapResponse_content_witness :
  ∃ σ' resp candidates sshPolicy,
    db.ListPeers (db (Demo.mapper true (Some 1%positive))) Demo.store_enabled
      Demo.laptop
    = Ok candidates
    ∧ @policy_GenerateFilterRules _ (Demo.collaborators Demo.marshal)
        (Some tt) candidates
        (stripEmailDomain (Demo.mapper true (Some 1%positive)))
      = Ok (tailcfg.MapResponse.PacketFilter resp, sshPolicy)
    ∧ db.TailNodes (db (Demo.mapper true (Some 1%positive)))
        Demo.store_enabled
        (@visible_peers _ (Demo.collaborators Demo.marshal) Demo.laptop
           candidates (tailcfg.MapResponse.PacketFilter resp))
        (Some tt) (dnsCfg (Demo.mapper true (Some 1%positive)))
      = Ok (tailcfg.MapResponse.Peers resp)
    ∧ (∀ name : string,
         (∃ p, p ∈ tailcfg.MapResponse.UserProfiles resp
               ∧ tailcfg.UserProfile.LoginName p = name)
         ↔ (∃ u, u ∈ users_of Demo.laptop
                       (@visible_peers _ (Demo.collaborators Demo.marshal)
                          Demo.laptop candidates
                          (tailcfg.MapResponse.PacketFilter resp))
                 ∧ types.User.Name u = name))
    ∧ (∃ b c, tailcfg.MapResponse.DNSConfig resp = Some b
              ∧ cfgs σ' !! b = Some c)
    ∧ tailcfg.MapResponse.KeepAlive resp = false
    ∧ tailcfg.MapResponse.Domain resp
      = baseDomain (Demo.mapper true (Some 1%positive)).
Proof.
  eexists _, _.
  eapply (@fullMapResponse_content _ (Demo.collaborators Demo.marshal)
            (Demo.mapper true (Some 1%positive)) (Demo.request "")
            Demo.laptop (Some tt) Demo.store_enabled).
  vm_compute. reflexivity.
Defined.

Lemma CreateMapResponse_nil_template_witness :
  @CreateMapResponse _ (Demo.collaborators Demo.marshal)
    (Demo.mapper true None) (Demo.request "") Demo.laptop None
    Demo.store_disabled
  ≠ Returned (Ok [x00; x00; x00; x00]) Demo.store_disabled.
Proof.
  apply (@CreateMapResponse_nil_template _ (Demo.collaborators Demo.marshal)
           (Demo.mapper true None) (Demo.request "") Demo.laptop None
           Demo.store_disabled Demo.store_disabled [x00; x00; x00; x00]).
  reflexivity.
Defined.

Lemma CreateMapResponse_builder_error_witness :
  @CreateMapResponse _ (Demo.collaborators Demo.marshal)
    Cases.broken_mapper (Demo.request "") Demo.laptop None
    Demo.store_disabled
  = Returned (Err "no such node"%string) Demo.store_disabled.
Proof.
  apply (@CreateMapResponse_builder_error _ (Demo.collaborators Demo.marshal)
           Cases.broken_mapper (Demo.request "") Demo.laptop None
           Demo.store_disabled {| tailcfg.Hostinfo.Hostname := "laptop" |}
           "no such node"%string).
  - reflexivity.
  - left. reflexivity.
Defined.

Lemma CreateMapResponse_bytes_witness :
  ∃ σ' resp,
    @CreateMapResponse _ (Demo.collaborators Demo.marshal)
      (Demo.mapper false (Some 1%positive)) (Demo.request "zstd")
      Demo.laptop None Demo.store_enabled
    = Returned
        (Ok (frame
               (if isNoise (Demo.mapper false (Some 1%positive))
                then @compressed _ (Demo.collaborators Demo.marshal) "zstd"
                       (@serialized _ (Demo.collaborators Demo.marshal) σ' resp)
                else Demo.seal x2a x6d
                       (@compressed _ (Demo.collaborators Demo.marshal) "zstd"
                          (@serialized _ (Demo.collaborators Demo.marshal)
                             σ' resp)))))
        σ'.
Proof.
  eexists _, _.
  eapply (@CreateMapResponse_bytes _ (Demo.collaborators Demo.marshal)
            (Demo.mapper false (Some 1%positive)) (Demo.request "zstd")
            Demo.laptop None Demo.store_enabled _ _ x6d x2a).
  - vm_compute. reflexivity.
  - intros _. split; reflexivity.
Defined.

Lemma legacy_key_error_witness :
  @CreateKeepAliveResponse _ (Demo.collaborators Demo.marshal)
    (Demo.mapper false (Some 1%positive)) (Demo.request "") Cases.keyless
    Demo.store_enabled
  = Returned (Err "empty key"%string) Demo.store_enabled
  ∧ ∀ resp σ',
      @fullMapResponse _ (Demo.collaborators Demo.marshal)
        (Demo.mapper false (Some 1%positive)) (Demo.request "") Cases.keyless
        None Demo.store_enabled
      = Returned (Ok resp) σ' →
      @CreateMapResponse _ (Demo.collaborators Demo.marshal)
        (Demo.mapper false (Some 1%positive)) (Demo.request "") Cases.keyless
        None Demo.store_enabled
      = Returned (Err "empty key"%string) σ'.
Proof.
  apply (@legacy_key_error _ (Demo.collaborators Demo.marshal)
           (Demo.mapper false (Some 1%positive)) (Demo.request "")
           Cases.keyless None Demo.store_enabled "empty key"%string);
    reflexivity.
Defined.
